(** * Sonnenschein: the dry-weather finder of [app.js]

    A shallow embedding of the search core of [app.js] (candidate generation,
    the per-site evaluation of [getWeather], the selection of
    [findBestWeather], [showResult] and the form's submit handler), followed
    by the properties of it that the specification states.

    JavaScript numbers are IEEE 754 binary64 values: they are modelled by
    Rocq's primitive [float], whose operations are the processor's and are
    specified (module [FloatAxioms]) by the functions of [SpecFloat]. *)

From Stdlib Require Import ZArith List String Bool Floats Lia Permutation Zpower.
Import ListNotations.

Set Implicit Arguments.
Set Warnings "-register-all".
Set Warnings "-inexact-float".

(** ** An integer order on binary64 numbers

    [key] maps the numbers of [SpecFloat] to integers so that IEEE comparison
    becomes the comparison of integers: the value scaled by [2 ^ 1074], the
    infinities beyond every finite value. *)

Module SF.

Local Open Scope Z_scope.

(** An integer that orders the numbers as IEEE comparison does. *)
Definition top : Z := 2 ^ 2100.

Definition key (x : spec_float) : Z :=
  match x with
  | S754_zero _ | S754_nan => 0
  | S754_infinity s => cond_Zopp s top
  | S754_finite s m e => cond_Zopp s (Zpos m * 2 ^ (e + 1074))
  end.

Definition number (x : spec_float) : Prop :=
  valid_binary x = true /\ x <> S754_nan.

(** [r] is a non-zero number of sign [s]. *)
Definition signed (s : bool) (r : spec_float) : Prop :=
  (exists m e, r = S754_finite s m e) \/ r = S754_infinity s.

End SF.

(** ** Numbers *)

Module Num.

(** [Math.PI], the binary64 value closest to the real number. *)
Definition Math_PI : float := 0x1.921fb54442d18p+1%float.

(** [isNaN] on a number. *)
Definition isNaN (x : float) : bool := is_nan x.

(** [a !== b] on two numbers: IEEE inequality, true when either is NaN, false
    on [+0] and [-0]. *)
Definition strict_neq (a b : float) : bool := negb (a =? b)%float.

(** The number of an array length. *)
Definition of_length (n : nat) : float := of_uint63 (Uint63.of_Z (Z.of_nat n)).

(** The place of a number in the order of IEEE comparison. *)
Definition key (x : float) : Z := SF.key (Prim2SF x).

End Num.

(** [Math.cos] and [Math.sin] are implementation-approximated in ECMAScript:
    an engine provides them, the model takes them as an interface. *)
Class MathLib := {
  Math_cos : float -> float;
  Math_sin : float -> float
}.

(** ** Candidate generation *)

Record Point := { lat : float; lon : float }.

(** [Array.prototype.push] and [Array.prototype.forEach] on lists. *)
Definition push {A} (arr : list A) (x : A) : list A := arr ++ [x].

Definition forEach {A S} (arr : list A) (body : S -> A -> S) (s : S) : S :=
  fold_left body arr s.

Definition degToRad : float := (Num.Math_PI / 180)%float.

Definition directions : list float :=
  [0; 45; 90; 135; 180; 225; 270; 315]%float.

Definition generateCandidatePoints `{MathLib} (lat lon radiusKm : float)
  : list Point :=
  let candidates := [] in
  let candidates := push candidates {| lat := lat; lon := lon |} in
  let latDelta := (radiusKm / 111)%float in
  let lonDelta := (radiusKm / (111 * Math_cos (lat * degToRad)))%float in
  forEach directions
    (fun candidates angleDeg =>
       let angleRad := (angleDeg * degToRad)%float in
       let dLat := (latDelta * Math_cos angleRad)%float in
       let dLon := (lonDelta * Math_sin angleRad)%float in
       push candidates {| lat := (lat + dLat)%float; lon := (lon + dLon)%float |})
    candidates.

(** ** JavaScript values read from a JSON response

    An object is the list of its own properties, each name once. *)

Inductive JSValue :=
| JUndefined
| JNull
| JBool (b : bool)
| JNumber (n : float)
| JString (s : string)
| JArray (elements : list JSValue)
| JObject (properties : list (string * JSValue)).

(** What a JavaScript computation throws. *)
Inductive exn :=
| Error (message : string)   (* [new Error(message)], thrown by app.js *)
| TypeError                  (* a property read on [null] or [undefined],
                                a value with no conversion to a string *)
| HostError (name : string). (* a rejection of the host: failed or aborted
                                fetch, [SyntaxError] of [json()] *)

Inductive result (A : Type) :=
| Ok (a : A)
| Throw (e : exn).
Arguments Ok {A} a.
Arguments Throw {A} e.

(** The string conversions of ECMAScript that app.js relies on: [StringToNumber]
    (behind [Number]), [parseFloat] on a string, [ToString] of a number, an
    array or an object (which throws a [TypeError] when the object has no
    callable conversion method, as one with a property named [toString]
    read from JSON), and [String.prototype.trim]. *)
Class StringConv := {
  StringToNumber : string -> float;
  ParseFloatString : string -> float;
  ObjectToString : JSValue -> result string;
  trim : string -> string
}.

Module JS.

Fixpoint lookup (name : string) (properties : list (string * JSValue)) : JSValue :=
  match properties with
  | [] => JUndefined
  | (k, v) :: rest => if String.eqb k name then v else lookup name rest
  end.

(** [v.name], for a name that no prototype defines ([weather], [hourly],
    [chanceofremdry], [precipMM], [nearest_area], [areaName], [value]). *)
Definition get (v : JSValue) (name : string) : result JSValue :=
  match v with
  | JUndefined | JNull => Throw TypeError
  | JObject properties => Ok (lookup name properties)
  | _ => Ok JUndefined
  end.

(** [v[0]]. *)
Definition index0 (v : JSValue) : result JSValue :=
  match v with
  | JUndefined | JNull => Throw TypeError
  | JArray elements => Ok (hd JUndefined elements)
  | JString (String c _) => Ok (JString (String c EmptyString))
  | JObject properties => Ok (lookup "0" properties)
  | _ => Ok JUndefined
  end.

(** [ToBoolean]. *)
Definition truthy (v : JSValue) : bool :=
  match v with
  | JUndefined | JNull => false
  | JBool b => b
  | JNumber n => negb (is_zero n || is_nan n)
  | JString s => negb (String.eqb s EmptyString)
  | JArray _ | JObject _ => true
  end.

Definition isArray (v : JSValue) : bool :=
  match v with JArray _ => true | _ => false end.

(** [ToString]. *)
Definition ToString `{StringConv} (v : JSValue) : result string :=
  match v with
  | JUndefined => Ok "undefined"%string
  | JNull => Ok "null"%string
  | JBool true => Ok "true"%string
  | JBool false => Ok "false"%string
  | JString s => Ok s
  | JNumber _ | JArray _ | JObject _ => ObjectToString v
  end.

(** [Number(v)], that is [ToNumber]: an array or an object is converted to a
    string first. *)
Definition Number `{StringConv} (v : JSValue) : result float :=
  match v with
  | JUndefined => Ok nan
  | JNull => Ok 0%float
  | JBool true => Ok 1%float
  | JBool false => Ok 0%float
  | JNumber n => Ok n
  | JString s => Ok (StringToNumber s)
  | JArray _ | JObject _ =>
      match ObjectToString v with
      | Ok s => Ok (StringToNumber s)
      | Throw e => Throw e
      end
  end.

(** [parseFloat(v)]: the argument is converted to a string first. *)
Definition parseFloat `{StringConv} (v : JSValue) : result float :=
  match ToString v with
  | Ok s => Ok (ParseFloatString s)
  | Throw e => Throw e
  end.

End JS.

(** ** The host: network and page *)

(** A request of [proxiedFetch], by the data its URL is built from. *)
Inductive Request :=
| WeatherRequest (lat lon : float).

(** A [Response]: its [ok] flag and what [json()] resolves to or rejects with. *)
Record Response := { ok : bool; json : result JSValue }.

Record Coordinates := { coord_lat : float; coord_lon : float }.

(** The outside world, of state [W]: [proxiedFetch] for the forecast source,
    and [getCoordinates], the geocoding lookup, with the result type its
    documentation gives it ([{lat:number, lon:number}|null]). Each call may
    fail and may change the world. *)
Class Host (W : Type) := {
  proxiedFetch : Request -> W -> result Response * W;
  getCoordinates : string -> W -> result (option Coordinates) * W
}.

(** One site's evaluation as [getWeather] returns it, and as [findBestWeather]
    keeps it with the site's coordinates. *)
Record Weather := { w_dryness : float; w_precip : float; w_nearest : JSValue }.

Record Evaluation := {
  e_lat : float; e_lon : float;
  dryness : float; precip : float; nearest : JSValue
}.

(** What [resultSection.innerHTML] shows. *)
Inductive Card :=
| NoCard
| NoSiteCard                                   (* Kein geeigneter Ort gefunden. *)
| BestCard (best : Evaluation) (place : string) (radiusKm : float)
| ErrorCard (error : exn).                     (* Es ist ein Fehler aufgetreten *)

(** What the program did to the outside, in order. *)
Inductive Event :=
| EvGeocode (place : string)
| EvGenerate (lat lon radiusKm : float)
| EvFetch (request : Request)
| EvWarn (pt : Point) (err : exn)
| EvError (err : exn).

Record State (W : Type) := {
  world : W;
  trace : list Event;
  resultHtml : Card;
  resultHidden : bool;
  loadingText : string;
  loadingHidden : bool
}.

(** Computations that read and change the state and may throw. *)
Definition M (W A : Type) : Type := State W -> result A * State W.

Definition ret {W A} (a : A) : M W A := fun s => (Ok a, s).

Definition throw {W A} (e : exn) : M W A := fun s => (Throw e, s).

Definition bind {W A B} (m : M W A) (k : A -> M W B) : M W B :=
  fun s => match m s with
           | (Ok a, s') => k a s'
           | (Throw e, s') => (Throw e, s')
           end.

(** [try { m } catch (err) { handler err }]. *)
Definition try_catch {W A} (m : M W A) (handler : exn -> M W A) : M W A :=
  fun s => match m s with
           | (Ok a, s') => (Ok a, s')
           | (Throw e, s') => handler e s'
           end.

(** A pure computation that may throw. *)
Definition lift {W A} (r : result A) : M W A := fun s => (r, s).

Definition log {W} (ev : Event) : M W unit :=
  fun s => (Ok tt, {| world := world s; trace := push (trace s) ev;
                      resultHtml := resultHtml s; resultHidden := resultHidden s;
                      loadingText := loadingText s; loadingHidden := loadingHidden s |}).

Declare Scope js_scope.
Delimit Scope js_scope with js.
Notation "x <- m ;; k" := (bind m (fun x => k))
  (at level 61, m at next level, right associativity) : js_scope.
Notation "m ;;; k" := (bind m (fun _ => k))
  (at level 61, right associativity) : js_scope.

(** ** The program *)

Section Program.

Context {W : Type} `{Host W} `{StringConv} `{MathLib}.
Local Open Scope js_scope.

Definition set_world (w : W) (s : State W) : State W :=
  {| world := w; trace := trace s;
     resultHtml := resultHtml s; resultHidden := resultHidden s;
     loadingText := loadingText s; loadingHidden := loadingHidden s |}.

(** [resultSection.innerHTML = html]. *)
Definition resultSection_innerHTML (html : Card) : M W unit :=
  fun s => (Ok tt, {| world := world s; trace := trace s;
                      resultHtml := html; resultHidden := resultHidden s;
                      loadingText := loadingText s; loadingHidden := loadingHidden s |}).

(** [resultSection.classList.add('hidden')] and [.remove('hidden')]. *)
Definition resultSection_hidden (hidden : bool) : M W unit :=
  fun s => (Ok tt, {| world := world s; trace := trace s;
                      resultHtml := resultHtml s; resultHidden := hidden;
                      loadingText := loadingText s; loadingHidden := loadingHidden s |}).

(** [loadingSection.textContent = text]. *)
Definition loadingSection_textContent (text : string) : M W unit :=
  fun s => (Ok tt, {| world := world s; trace := trace s;
                      resultHtml := resultHtml s; resultHidden := resultHidden s;
                      loadingText := text; loadingHidden := loadingHidden s |}).

(** [loadingSection.classList.add('hidden')] and [.remove('hidden')]. *)
Definition loadingSection_hidden (hidden : bool) : M W unit :=
  fun s => (Ok tt, {| world := world s; trace := trace s;
                      resultHtml := resultHtml s; resultHidden := resultHidden s;
                      loadingText := loadingText s; loadingHidden := hidden |}).

(** [await proxiedFetch(url)]: the request is recorded, then answered by the
    host (a timeout is a rejection). *)
Definition fetch (request : Request) : M W Response :=
  fun s => let s := {| world := world s; trace := push (trace s) (EvFetch request);
                       resultHtml := resultHtml s; resultHidden := resultHidden s;
                       loadingText := loadingText s; loadingHidden := loadingHidden s |} in
           let (r, w) := proxiedFetch request (world s) in
           (r, set_world w s).

(** [await getCoordinates(place)]. *)
Definition geocode (place : string) : M W (option Coordinates) :=
  fun s => let s := {| world := world s; trace := push (trace s) (EvGeocode place);
                       resultHtml := resultHtml s; resultHidden := resultHidden s;
                       loadingText := loadingText s; loadingHidden := loadingHidden s |} in
           let (r, w) := getCoordinates place (world s) in
           (r, set_world w s).

(** [arr.forEach(body)] with a body that may throw. *)
Fixpoint forEach_result {A S} (arr : list A) (body : S -> A -> result S) (s : S)
  : result S :=
  match arr with
  | [] => Ok s
  | x :: rest =>
      match body s x with
      | Ok s' => forEach_result rest body s'
      | Throw e => Throw e
      end
  end.

Definition bind_result {A B} (r : result A) (k : A -> result B) : result B :=
  match r with
  | Ok a => k a
  | Throw e => Throw e
  end.

(** The body of [hourly.forEach] in [getWeather], on the pair
    [(drynessSum, precipSum)]. *)
Definition addHour (sums : float * float) (h : JSValue) : result (float * float) :=
  let (drynessSum, precipSum) := sums in
  bind_result (JS.get h "chanceofremdry") (fun c =>
  bind_result (JS.Number c) (fun chance =>
  let drynessSum := (drynessSum + chance)%float in
  bind_result (JS.get h "precipMM") (fun p =>
  bind_result (JS.parseFloat p) (fun millimetres =>
  let precipSum := (precipSum + millimetres)%float in
  Ok (drynessSum, precipSum))))).

(** The name of the nearest place, when the response has one. *)
Definition nearestName (data : JSValue) : result JSValue :=
  bind_result (JS.get data "nearest_area") (fun area =>
  if negb (JS.isArray area) then Ok (JString "") else
  bind_result (JS.index0 area) (fun area0 =>
  if negb (JS.truthy area0) then Ok (JString "") else
  bind_result (JS.get area0 "areaName") (fun areaName =>
  if negb (JS.truthy areaName) then Ok (JString "") else
  bind_result (JS.index0 areaName) (fun name0 =>
  JS.get name0 "value")))).

(** [getWeather] from the parsed response on: the first day's hourly series
    is averaged (dryness) and summed (precipitation). *)
Definition evaluate (data : JSValue) : result Weather :=
  bind_result (JS.get data "weather") (fun days =>
  bind_result (if JS.truthy days then JS.index0 days else Ok days) (fun weather =>
  if negb (JS.truthy weather) then Throw (Error "Unvollständige Wetterdaten erhalten.") else
  bind_result (JS.get weather "hourly") (fun hourly =>
  match hourly with
  | JArray hourly =>
      bind_result (forEach_result hourly addHour (0%float, 0%float)) (fun sums =>
      let (drynessSum, precipSum) := sums in
      let drynessAvg := (drynessSum / Num.of_length (List.length hourly))%float in
      let precipTotal := precipSum in
      bind_result (nearestName data) (fun nearestName =>
      Ok {| w_dryness := drynessAvg; w_precip := precipTotal; w_nearest := nearestName |}))
  | _ => Throw (Error "Unvollständige Wetterdaten erhalten.")
  end))).

Definition getWeather (lat lon : float) : M W Weather :=
  resp <- fetch (WeatherRequest lat lon) ;;
  if negb (ok resp) then throw (Error "Wetterdaten konnten nicht abgerufen werden.") else
  data <- lift (json resp) ;;
  lift (evaluate data).

(** The comparison function given to [results.sort]. *)
Definition compareResults (a b : Evaluation) : float :=
  if Num.strict_neq (dryness b) (dryness a) then (dryness b - dryness a)%float
  else (precip a - precip b)%float.

(** How [Array.prototype.sort] reads its comparison function: a NaN counts
    as [+0]. *)
Definition SortCompare {A} (comparefn : A -> A -> float) (x y : A) : float :=
  let v := comparefn x y in
  if is_nan v then 0%float else v.

(** [Array.prototype.sort] is a stable sort: an element moves in front of an
    earlier one only when the comparison of the two is negative. It is
    modelled by the insertion sort that engines run on arrays this short. *)
Fixpoint insert {A} (comparefn : A -> A -> float) (x : A) (sorted : list A) : list A :=
  match sorted with
  | [] => [x]
  | y :: rest =>
      if (SortCompare comparefn y x <? 0)%float then y :: insert comparefn x rest
      else x :: sorted
  end.

Definition sort {A} (comparefn : A -> A -> float) (arr : list A) : list A :=
  fold_right (insert comparefn) [] arr.

(** The [for (const pt of points)] loop of [findBestWeather]. A [Weather]
    record is an object, so the test [if (data)] always passes. *)
Fixpoint collect (points : list Point) (results : list Evaluation)
  : M W (list Evaluation) :=
  match points with
  | [] => ret results
  | pt :: rest =>
      results <- try_catch
                   (data <- getWeather (lat pt) (lon pt) ;;
                    ret (push results
                           {| e_lat := lat pt; e_lon := lon pt;
                              dryness := w_dryness data; precip := w_precip data;
                              nearest := w_nearest data |}))
                   (fun err => log (EvWarn pt err) ;;; ret results) ;;
      collect rest results
  end.

(** The end of [findBestWeather]: the results are sorted and the first one
    is returned; [results[0]] is [undefined] on an empty array: [None]. *)
Definition selectBest (results : list Evaluation) : option Evaluation :=
  let results := sort compareResults results in
  hd_error results.

Definition findBestWeather (points : list Point) : M W (option Evaluation) :=
  results <- collect points [] ;;
  ret (selectBest results).

Definition showResult (best : option Evaluation) (place : string) (radiusKm : float)
  : M W unit :=
  match best with
  | None =>
      resultSection_innerHTML NoSiteCard ;;;
      resultSection_hidden false
  | Some best =>
      resultSection_innerHTML (BestCard best place radiusKm) ;;;
      resultSection_hidden false
  end.

(** [try { m } catch (error) { handler error } finally { final }], with a
    handler and a final block that do not throw. *)
Definition try_catch_finally {A} (m : M W A) (handler : exn -> M W A) (final : M W unit)
  : M W A :=
  r <- try_catch m handler ;;
  final ;;;
  ret r.

(** The submit handler of the search form, on the values of the two inputs
    (strings, so [parseFloat] has nothing to convert first). *)
Definition submit (locationValue radiusValue : string) : M W unit :=
  let location := trim locationValue in
  let radiusKm := ParseFloatString radiusValue in
  if String.eqb location "" || Num.isNaN radiusKm then ret tt else
  resultSection_hidden true ;;;
  loadingSection_hidden false ;;;
  loadingSection_textContent "Suche läuft…" ;;;
  try_catch_finally
    (coords <- geocode location ;;
     match coords with
     | None => throw (Error "Ort konnte nicht gefunden werden.")
     | Some coords =>
         log (EvGenerate (coord_lat coords) (coord_lon coords) radiusKm) ;;;
         let candidates :=
           generateCandidatePoints (coord_lat coords) (coord_lon coords) radiusKm in
         best <- findBestWeather candidates ;;
         showResult best location radiusKm
     end)
    (fun error =>
       log (EvError error) ;;;
       resultSection_innerHTML (ErrorCard error) ;;;
       resultSection_hidden false)
    (loadingSection_hidden true).

End Program.

(** ** The vocabulary of the properties *)

Section Vocabulary.

Context {W : Type} `{Host W} `{StringConv}.
Local Open Scope float_scope.

(** The entry [findBestWeather] pushes for a site whose forecast was read. *)
Definition evaluation_of (pt : Point) (data : Weather) : Evaluation :=
  {| e_lat := lat pt; e_lon := lon pt;
     dryness := w_dryness data; precip := w_precip data; nearest := w_nearest data |}.

(** The site an entry was computed for. *)
Definition site (e : Evaluation) : Point := {| lat := e_lat e; lon := e_lon e |}.

(** Every candidate with what its own [getWeather] call gave, the calls made
    one after the other in candidate order (a failure is warned about before
    the next call). *)
Fixpoint attempts (points : list Point) (s : State W)
  : list (Point * result Weather) * State W :=
  match points with
  | [] => ([], s)
  | pt :: rest =>
      let (r, s1) := getWeather (lat pt) (lon pt) s in
      let s2 := match r with
                | Ok _ => s1
                | Throw err => snd (log (EvWarn pt err) s1)
                end in
      let (outcomes, s3) := attempts rest s2 in
      ((pt, r) :: outcomes, s3)
  end.

(** The entries of the candidates that did not fail. *)
Definition successes (outcomes : list (Point * result Weather)) : list Evaluation :=
  flat_map (fun o => match snd o with
                     | Ok data => [evaluation_of (fst o) data]
                     | Throw _ => []
                     end) outcomes.

Definition failed (o : Point * result Weather) : Prop :=
  exists err, snd o = Throw err.

(** The requests among the events of a trace. *)
Definition fetches (events : list Event) : list Request :=
  flat_map (fun ev => match ev with EvFetch r => [r] | _ => [] end) events.

Definition request_of (pt : Point) : Request := WeatherRequest (lat pt) (lon pt).

(** [l1] is [l2] with some elements left out. *)
Inductive Subseq {A} : list A -> list A -> Prop :=
| Subseq_nil : Subseq [] []
| Subseq_skip x l1 l2 : Subseq l1 l2 -> Subseq l1 (x :: l2)
| Subseq_keep x l1 l2 : Subseq l1 l2 -> Subseq (x :: l1) (x :: l2).

(** Both scores of the entry are numbers, not NaN. *)
Definition numeric (e : Evaluation) : bool :=
  negb (is_nan (dryness e)) && negb (is_nan (precip e)).

(** [a] ranks ahead of [b]: a higher dryness score or, at equal dryness
    scores, a lower total precipitation. *)
Definition better (a b : Evaluation) : bool :=
  (dryness b <? dryness a) || ((dryness a =? dryness b) && (precip a <? precip b)).

(** [best] is the first of the entries of [results] that no entry ranks
    ahead of: it ranks ahead of every entry listed before it, and no entry
    listed after it ranks ahead of it. *)
Definition first_best (best : Evaluation) (results : list Evaluation) : Prop :=
  exists earlier later,
    results = earlier ++ best :: later /\
    Forall (fun e => better best e = true) earlier /\
    Forall (fun e => better e best = false) later.

(** The sum and the arithmetic mean of a list of numbers, added up from the
    left as the loop does. *)
Definition sum_of (xs : list float) : float := fold_left add xs 0.

Definition mean_of (xs : list float) : float :=
  sum_of xs / Num.of_length (List.length xs).

(** The two numbers [getWeather] reads off an hour, dryness chance and
    precipitation, or what reading them throws: a [TypeError] for an hour
    that is [null], or for a value with no conversion to a string. *)
Definition hour_numbers (h : JSValue) : result (float * float) :=
  bind_result (JS.get h "chanceofremdry") (fun c =>
  bind_result (JS.Number c) (fun chance =>
  bind_result (JS.get h "precipMM") (fun p =>
  bind_result (JS.parseFloat p) (fun millimetres =>
  Ok (chance, millimetres))))).

(** The hours of [hourly] can all be read, and give [numbers]. *)
Definition read_as (hourly : list JSValue) (numbers : list (float * float)) : Prop :=
  Forall2 (fun h xy => hour_numbers h = Ok xy) hourly numbers.

(** The response has the documented shape [{weather: [{hourly: [...]}, ...]}]
    with the series [hourly]. *)
Definition has_series (data : JSValue) (hourly : list JSValue) : Prop :=
  exists properties day days,
    data = JObject properties /\
    JS.lookup "weather" properties = JArray (JObject day :: days) /\
    JS.lookup "hourly" day = JArray hourly.

End Vocabulary.

(** ** Scenarios

    A scripted host and engine to run the program on: the geocoder's answer
    and the forecast responses are given in advance, the string conversions
    are tabulated for the strings the scenarios use (no scenario converts a
    number, an array or an object to a string), and the engine's cosine
    is the exact 0 at a right angle (the value the specification assumes at
    the poles) and a power series elsewhere. *)

Module Fixture.

Local Open Scope float_scope.

Fixpoint series (n : nat) (k term sum x2 : float) : float :=
  match n with
  | O => sum
  | S n =>
      let term := - term * x2 / ((k + 1) * (k + 2)) in
      series n (k + 2) term (sum + term) x2
  end.

Definition engine : MathLib := {|
  Math_cos := fun x => if abs x =? 90 * degToRad then 0 else series 30 0 1 1 (x * x);
  Math_sin := fun x => series 30 1 x x (x * x)
|}.

Definition conv : StringConv := {|
  StringToNumber := fun s =>
    if String.eqb s "80" then 80 else
    if String.eqb s "70" then 70 else nan;
  ParseFloatString := fun s =>
    if String.eqb s "1.2" then 1.2 else
    if String.eqb s "0.5" then 0.5 else
    if String.eqb s "10" then 10 else
    if String.eqb s "-5" then -5 else nan;
  ObjectToString := fun _ => Ok "[object Object]"%string;
  trim := fun s => s
|}.

Record World := {
  geo : result (option Coordinates);
  forecasts : list (result Response)
}.

(** The forecast responses are handed out in order; once they are used up,
    a fetch fails. *)
Definition host : Host World := {|
  proxiedFetch := fun _ w =>
    match forecasts w with
    | [] => (Throw (HostError "TypeError"), w)
    | r :: rest => (r, {| geo := geo w; forecasts := rest |})
    end;
  getCoordinates := fun _ w => (geo w, w)
|}.

Definition start (w : World) : State World :=
  {| world := w; trace := [];
     resultHtml := NoCard; resultHidden := true;
     loadingText := ""; loadingHidden := true |}.

Definition hour (chanceofremdry precipMM : string) : JSValue :=
  JObject [("chanceofremdry"%string, JString chanceofremdry);
           ("precipMM"%string, JString precipMM)].

Definition forecast (hourly : list JSValue) : JSValue :=
  JObject [("weather"%string, JArray [JObject [("hourly"%string, JArray hourly)]])].

Definition answer (data : JSValue) : result Response :=
  Ok {| ok := true; json := Ok data |}.

Definition berlin : Coordinates := {| coord_lat := 52.52; coord_lon := 13.405 |}.

Definition entry (d p : float) : Evaluation :=
  {| e_lat := 52.52; e_lon := 13.405; dryness := d; precip := p; nearest := JString "" |}.

(** Four evaluations: dryness 80 with 1.2 mm, 80 with 0.5 mm, 70 with 0 mm,
    and 80 with 0.5 mm again. *)
Definition ranked_four : list Evaluation :=
  [ {| e_lat := 52.52; e_lon := 13.405; dryness := 80; precip := 1.2; nearest := JString "" |};
    {| e_lat := 52.61; e_lon := 13.405; dryness := 80; precip := 0.5; nearest := JString "" |};
    {| e_lat := 52.52; e_lon := 13.553; dryness := 70; precip := 0; nearest := JString "" |};
    {| e_lat := 52.43; e_lon := 13.405; dryness := 80; precip := 0.5; nearest := JString "" |} ].

(** Dryness 50, then NaN, then 80. *)
Definition with_nan : list Evaluation := [entry 50 0; entry nan 0; entry 80 0].

(** The origin and the candidate north of it, 10 km away. *)
Definition two_sites : list Point :=
  [ {| lat := 52.52; lon := 13.405 |}; {| lat := 52.61009009009009; lon := 13.405 |} ].

(** The geocoder finds Berlin; every forecast request fails. *)
Definition offline : State World :=
  start {| geo := Ok (Some berlin); forecasts := [] |}.

(** The first forecast has an empty hourly series, the second one hour. *)
Definition empty_then_dry : State World :=
  start {| geo := Ok (Some berlin);
           forecasts := [answer (forecast []); answer (forecast [hour "80" "0.5"])] |}.

(** Two forecasts of one hour each. *)
Definition two_dry : State World :=
  start {| geo := Ok (Some berlin);
           forecasts := [answer (forecast [hour "80" "1.2"]);
                         answer (forecast [hour "80" "0.5"])] |}.


End Fixture.

(** ** More on numbers *)

Module SFMore.



End SFMore.

(** ** The geocoding lookup *)

Module Geocoding.

(** The coordinates as the response gives them: any values. *)
Record RawCoordinates := { raw_lat : JSValue; raw_lon : JSValue }.

(** [getCoordinates] from the answer of [proxiedFetch] on ([Throw]: the
    fetch was rejected): the status test, the body, and the first result's
    [latitude] and [longitude]; [None] is [null]. *)
Definition getCoordinates (fetched : result Response) : result (option RawCoordinates) :=
  bind_result fetched (fun response =>
  if negb (ok response) then Throw (Error "Geocoding‑Anfrage fehlgeschlagen.") else
  bind_result (json response) (fun data =>
  if negb (JS.truthy data) then Ok None else
  bind_result (JS.get data "results") (fun results =>
  match results with
  | JArray (result :: _) =>
      bind_result (JS.get result "latitude") (fun latitude =>
      bind_result (JS.get result "longitude") (fun longitude =>
      Ok (Some {| raw_lat := latitude; raw_lon := longitude |})))
  | _ => Ok None
  end))).

End Geocoding.

(** ** More vocabulary *)

(** The warnings among the events of a trace. *)
Definition warnings (events : list Event) : list (Point * exn) :=
  flat_map (fun ev => match ev with EvWarn pt err => [(pt, err)] | _ => [] end) events.

(** The candidates that failed, each with what it threw. *)
Definition failures (outcomes : list (Point * result Weather)) : list (Point * exn) :=
  flat_map (fun o => match snd o with
                     | Ok _ => []
                     | Throw err => [(fst o, err)]
                     end) outcomes.

(** The handler's guard lets the two input values through. *)
Definition accepted `{StringConv} (locationValue radiusValue : string) : Prop :=
  trim locationValue <> ""%string /\ is_nan (ParseFloatString radiusValue) = false.


(** A host that is down: every request is rejected, the geocoder finds
    Berlin. *)
Module Down.

Definition host : Host unit := {|
  proxiedFetch := fun _ w => (Throw (HostError "TypeError"), w);
  getCoordinates := fun _ w => (Ok (Some Fixture.berlin), w)
|}.

Definition start : State unit :=
  {| world := tt; trace := [];
     resultHtml := NoCard; resultHidden := true;
     loadingText := ""; loadingHidden := true |}.

End Down.

(** More data for the scenarios. *)
Module Sample.

Import Fixture.
Local Open Scope float_scope.

(** The four evaluations of [ranked_four], last to first. *)
Definition ranked_back : list Evaluation := rev ranked_four.

(** Two hours that can be read. *)
Definition two_hours : JSValue := forecast [hour "80" "1.2"; hour "70" "0.5"].

(** The second of three hours is [null]. *)
Definition missing_hour : JSValue :=
  forecast [hour "80" "1.2"; JNull; hour "70" "0.5"].

(** The first day's [hourly] is a string. *)
Definition no_hours : list (string * JSValue) :=
  [("weather"%string, JArray [JObject [("hourly"%string, JString "none")]])].

(** A readable forecast whose nearest area has an empty [areaName]. *)
Definition unnamed_area : JSValue :=
  JObject [("weather"%string,
            JArray [JObject [("hourly"%string, JArray [hour "80" "1.2"])]]);
           ("nearest_area"%string,
            JArray [JObject [("areaName"%string, JArray [])]])].

(** The geocoder finds nothing. *)
Definition unknown_place : State World :=
  start {| geo := Ok None; forecasts := [] |}.

End Sample.

(** * Properties *)

(** ** Numbers: the order of IEEE comparison, the sign of a difference, NaN

    The facts are proved on [SpecFloat]'s functions at the binary64 format
    (module [SF]) and carried over to the primitive operations (module
    [NumOrder]). *)

Module SFFacts.

Import SF.
Local Open Scope Z_scope.

Lemma digits2_pos_bounds (m : positive) :
  2 ^ (Zpos (digits2_pos m) - 1) <= Zpos m < 2 ^ Zpos (digits2_pos m).
Proof.
  induction m as [p IH|p IH|]; cbn [digits2_pos];
    [rewrite Pos2Z.inj_succ; change (Zpos p~1) with (2 * Zpos p + 1)
    |rewrite Pos2Z.inj_succ; change (Zpos p~0) with (2 * Zpos p)
    |cbn; lia];
    replace (Z.succ (Zpos (digits2_pos p)) - 1) with (Z.succ (Zpos (digits2_pos p) - 1)) by lia;
    rewrite !Z.pow_succ_r by lia; lia.
Qed.

Lemma bounded_inv (m : positive) (e : Z) :
  bounded prec emax m e = true ->
  Z.max (Zpos (digits2_pos m) + e - 53) (-1074) = e /\ e <= 971.
Proof.
  unfold bounded, canonical_mantissa, fexp, SpecFloat.emin, prec, emax.
  intros B. apply andb_true_iff in B as [C E].
  apply Z.eqb_eq in C. apply Z.leb_le in E. split; [exact C | exact E].
Qed.

Lemma top_split : top = 2 ^ 53 * 2 ^ 2047.
Proof. unfold top. rewrite <- Z.pow_add_r; [reflexivity| easy | easy]. Qed.

Lemma finite_range (m : positive) (e : Z) :
  bounded prec emax m e = true ->
  -1074 <= e /\ 0 < Zpos m * 2 ^ (e + 1074) < top.
Proof.
  intros B. apply bounded_inv in B as [C E].
  pose proof (digits2_pos_bounds m) as [_ D].
  assert (L : -1074 <= e) by lia. split; [assumption|].
  assert (D53 : Zpos (digits2_pos m) <= 53) by lia.
  assert (M : Zpos m < 2 ^ 53).
  { eapply Z.lt_le_trans; [exact D|]. apply Z.pow_le_mono_r; [easy|exact D53]. }
  assert (P : 0 < 2 ^ (e + 1074)) by (apply Z.pow_pos_nonneg; lia).
  assert (Q : 2 ^ (e + 1074) < 2 ^ 2047) by (apply Z.pow_lt_mono_r; lia).
  rewrite top_split. clear C D D53.
  generalize dependent (2 ^ (e + 1074)). generalize dependent (2 ^ 53).
  generalize (2 ^ 2047). intros. nia.
Qed.
Lemma canonical_lt (m1 m2 : positive) (e1 e2 : Z) :
  bounded prec emax m1 e1 = true -> bounded prec emax m2 e2 = true ->
  e1 < e2 ->
  Zpos m1 * 2 ^ (e1 + 1074) < Zpos m2 * 2 ^ (e2 + 1074).
Proof.
  intros B1 B2 L.
  apply bounded_inv in B1 as [C1 _]. apply bounded_inv in B2 as [C2 _].
  pose proof (digits2_pos_bounds m1) as [_ U1].
  pose proof (digits2_pos_bounds m2) as [L2 _].
  assert (D2 : Zpos (digits2_pos m2) = 53) by lia.
  assert (D1 : Zpos (digits2_pos m1) <= 53) by lia.
  rewrite D2 in L2. change (53 - 1) with 52 in L2.
  assert (M1 : Zpos m1 < 2 * 2 ^ 52).
  { change (2 * 2 ^ 52) with (2 ^ 53).
    eapply Z.lt_le_trans; [exact U1|]. apply Z.pow_le_mono_r; [easy|exact D1]. }
  replace (e2 + 1074) with ((e2 - e1) + (e1 + 1074)) by lia.
  rewrite (Z.pow_add_r 2 (e2 - e1) (e1 + 1074)) by lia.
  assert (P : 0 < 2 ^ (e1 + 1074)) by (apply Z.pow_pos_nonneg; lia).
  assert (Q : 2 ^ 1 <= 2 ^ (e2 - e1)) by (apply Z.pow_le_mono_r; lia).
  change (2 ^ 1) with 2 in Q.
  clear C1 C2 U1 D1 D2.
  assert (P52 : 0 < 2 ^ 52) by easy.
  generalize dependent (2 ^ (e1 + 1074)). generalize dependent (2 ^ (e2 - e1)).
  generalize dependent (2 ^ 52). intros a L2 M1 Pa b Q c P.
  assert (S1 : Zpos m1 * c < 2 * a * c) by (apply Z.mul_lt_mono_pos_r; lia).
  assert (S2 : 2 * a <= Zpos m2 * b) by nia.
  assert (S3 : 2 * a * c <= Zpos m2 * b * c) by (apply Z.mul_le_mono_nonneg_r; lia).
  lia.
Qed.

Lemma magnitude_compare (m1 m2 : positive) (e1 e2 : Z) :
  bounded prec emax m1 e1 = true -> bounded prec emax m2 e2 = true ->
  match e1 ?= e2 with
  | Lt => Lt
  | Gt => Gt
  | Eq => Pos.compare_cont Eq m1 m2
  end = (Zpos m1 * 2 ^ (e1 + 1074) ?= Zpos m2 * 2 ^ (e2 + 1074)).
Proof.
  intros B1 B2. destruct (Z.compare_spec e1 e2) as [E|L|G].
  - subst e2. symmetry.
    assert (P : 0 < 2 ^ (e1 + 1074)).
    { apply Z.pow_pos_nonneg; [easy|]. apply bounded_inv in B1. lia. }
    rewrite <- Zmult_compare_compat_r by lia. reflexivity.
  - symmetry. apply Z.compare_lt_iff. now apply canonical_lt.
  - symmetry. apply Z.compare_gt_iff. now apply canonical_lt.
Qed.

Ltac by_compare :=
  f_equal; symmetry;
  first [ apply Z.compare_eq_iff; lia
        | apply Z.compare_lt_iff; lia
        | apply Z.compare_gt_iff; lia ].

Lemma compare_key (x y : spec_float) :
  number x -> number y -> SFcompare x y = Some (key x ?= key y).
Proof.
  intros [Vx Nx] [Vy Ny].
  assert (T : 0 < top) by (unfold top; now apply Z.pow_pos_nonneg).
  destruct x as [sx|sx| |sx mx ex], y as [sy|sy| |sy my ey];
    try congruence; cbn [SFcompare key valid_binary] in *;
    try (pose proof (@finite_range _ _ Vx) as [_ Rx]);
    try (pose proof (@finite_range _ _ Vy) as [_ Ry]);
    try destruct sx; try destruct sy; cbv [cond_Zopp];
    try solve [by_compare].
  - f_equal. rewrite Z.compare_opp, <- (@magnitude_compare my mx ey ex Vy Vx).
    rewrite (Z.compare_antisym ex ey).
    change (Pos.compare_cont Eq my mx) with (Pos.compare my mx).
    rewrite (Pos.compare_antisym mx my).
    now destruct (ex ?= ey).
  - f_equal. now apply magnitude_compare.
Qed.

(** *** Rounding keeps the sign and never reaches zero from a non-zero integer *)

Lemma shr_1_m (r : shr_record) :
  0 <= shr_m r -> shr_m (shr_1 r) = shr_m r / 2.
Proof.
  destruct r as [m rb sb]. cbn [shr_m]. intros P.
  destruct m as [|[p|p|]|p]; cbn [shr_1 shr_m].
  - reflexivity.
  - change (Zpos p~1) with (2 * Zpos p + 1).
    apply Z.div_unique with (r := 1); lia.
  - change (Zpos p~0) with (2 * Zpos p).
    apply Z.div_unique with (r := 0); lia.
  - reflexivity.
  - lia.
Qed.

Lemma iter_shr_m (p : positive) : forall r : shr_record,
  0 <= shr_m r -> shr_m (iter_pos shr_1 p r) = shr_m r / 2 ^ Zpos p.
Proof.
  induction p as [p IH|p IH|]; intros r P; cbn [iter_pos].
  - assert (P1 : 0 <= shr_m (shr_1 r)) by (rewrite shr_1_m by assumption; now apply Z.div_pos).
    assert (Q : 0 < 2 ^ Zpos p) by now apply Z.pow_pos_nonneg.
    assert (P2 : 0 <= shr_m (iter_pos shr_1 p (shr_1 r))).
    { rewrite IH by assumption. apply Z.div_pos; lia. }
    rewrite IH, IH, shr_1_m by assumption.
    rewrite !Z.div_div by lia. f_equal.
    replace (Zpos p~1) with (1 + (Zpos p + Zpos p)) by lia.
    rewrite !Z.pow_add_r by lia. change (2 ^ 1) with 2. lia.
  - assert (Q : 0 < 2 ^ Zpos p) by now apply Z.pow_pos_nonneg.
    assert (P2 : 0 <= shr_m (iter_pos shr_1 p r)).
    { rewrite IH by assumption. apply Z.div_pos; lia. }
    rewrite IH, IH by assumption.
    rewrite !Z.div_div by lia. f_equal.
    replace (Zpos p~0) with (Zpos p + Zpos p) by lia.
    rewrite !Z.pow_add_r by lia. lia.
  - now apply shr_1_m.
Qed.

Lemma shr_record_of_loc_m (m : Z) (l : location) : shr_m (shr_record_of_loc m l) = m.
Proof. destruct l as [|[]]; reflexivity. Qed.

Lemma shr_fexp_pos (m e : Z) (l : location) :
  0 < m -> -1074 <= e ->
  0 < shr_m (fst (shr_fexp prec emax m e l)) /\ -1074 <= snd (shr_fexp prec emax m e l).
Proof.
  intros P E. destruct m as [|p|p]; try lia.
  unfold shr_fexp, shr, fexp, SpecFloat.emin, prec, emax. cbn [Zdigits2].
  pose proof (digits2_pos_bounds p) as [L _].
  destruct (Z.max (Zpos (digits2_pos p) + e - 53) (3 - 1024 - 53) - e) as [|q|q] eqn:N;
    cbn [fst snd]; rewrite ?shr_record_of_loc_m; try (split; lia).
  split; [|lia].
  rewrite iter_shr_m, shr_record_of_loc_m by (rewrite shr_record_of_loc_m; lia).
  apply Z.div_str_pos. split; [now apply Z.pow_pos_nonneg|].
  eapply Z.le_trans; [|exact L]. apply Z.pow_le_mono_r; lia.
Qed.

Lemma round_nearest_even_pos (m : Z) (l : location) :
  0 < m -> 0 < round_nearest_even m l.
Proof.
  intros P. destruct l as [|[]]; cbn [round_nearest_even]; try lia.
  destruct (Z.even m); lia.
Qed.

Lemma binary_round_aux_signed (s : bool) (m e : Z) (l : location) :
  0 < m -> -1074 <= e -> signed s (binary_round_aux prec emax s m e l).
Proof.
  intros P E. unfold binary_round_aux.
  pose proof (@shr_fexp_pos m e l P E) as [P1 E1].
  destruct (shr_fexp prec emax m e l) as [r1 e1]. cbn [fst snd] in P1, E1.
  pose proof (@round_nearest_even_pos (shr_m r1) (loc_of_shr_record r1) P1) as P2.
  pose proof (@shr_fexp_pos _ e1 loc_Exact P2 E1) as [P3 E3].
  destruct (shr_fexp prec emax _ e1 loc_Exact) as [r2 e2]. cbn [fst snd] in P3, E3.
  destruct (shr_m r2) as [|q|q]; try lia.
  destruct (e2 <=? emax - prec); [left; eauto | now right].
Qed.

Lemma binary_round_signed (s : bool) (m : positive) (e : Z) :
  -1074 <= e -> signed s (binary_round prec emax s m e).
Proof.
  intros E. unfold binary_round.
  destruct (shl_align m e (fexp prec emax (Zpos (digits2_pos m) + e))) as [mz ez] eqn:A.
  apply binary_round_aux_signed; [lia|].
  unfold shl_align, fexp, SpecFloat.emin, prec, emax in A.
  destruct (Z.max (Zpos (digits2_pos m) + e - 53) (3 - 1024 - 53) - e) eqn:N;
    injection A as _ <-; lia.
Qed.

Lemma signed_compare (s : bool) (r : spec_float) :
  signed s r -> SFcompare r (S754_zero false) = Some (if s then Lt else Gt).
Proof. intros [(m & e & ->)| ->]; reflexivity. Qed.

(** *** The sign of a difference *)

Lemma shl_align_fst (m : positive) (e e' : Z) :
  e' <= e -> Zpos (fst (shl_align m e e')) = Zpos m * 2 ^ (e - e').
Proof.
  intros L. unfold shl_align.
  destruct (e' - e) as [|d|d] eqn:D; cbn [fst]; try lia.
  - replace (e - e') with 0 by lia. lia.
  - replace (e - e') with (Zpos d) by lia.
    change (Pos.iter xO m d) with (shift_pos d m).
    rewrite shift_pos_correct, Zpower_pos_nat, Zpower_nat_Z, positive_nat_Z. lia.
Qed.

Lemma finite_key_aligned (s : bool) (m : positive) (e ez : Z) :
  -1074 <= ez <= e ->
  key (S754_finite s m e) =
    cond_Zopp s (Zpos (fst (shl_align m e ez))) * 2 ^ (ez + 1074).
Proof.
  intros L. rewrite shl_align_fst by lia. cbn [key].
  replace (e + 1074) with ((e - ez) + (ez + 1074)) by lia.
  rewrite (Z.pow_add_r 2 (e - ez) (ez + 1074)) by lia.
  destruct s; cbn [cond_Zopp]; lia.
Qed.

Lemma normalize_compare (d ez : Z) :
  -1074 <= ez ->
  SFcompare (binary_normalize prec emax d ez false) (S754_zero false) = Some (d ?= 0).
Proof.
  intros L. destruct d as [|p|p]; cbn [binary_normalize].
  - reflexivity.
  - pose proof (@binary_round_signed false p ez L) as S.
    apply signed_compare in S. now rewrite S.
  - pose proof (@binary_round_signed true p ez L) as S.
    apply signed_compare in S. now rewrite S.
Qed.

Lemma sub_compare (x y : spec_float) :
  number x -> number y ->
  (SFsub prec emax x y = S754_nan /\ key x = key y) \/
  SFcompare (SFsub prec emax x y) (S754_zero false) = Some (key x ?= key y).
Proof.
  intros [Vx Nx] [Vy Ny].
  assert (T : 0 < top) by (unfold top; now apply Z.pow_pos_nonneg).
  destruct x as [sx|sx| |sx mx ex], y as [sy|sy| |sy my ey]; try congruence;
    cbn [valid_binary] in *;
    try (pose proof (@finite_range _ _ Vx) as [Ex Rx]);
    try (pose proof (@finite_range _ _ Vy) as [Ey Ry]).
  9: { right. cbn [SFsub].
       rewrite normalize_compare by lia. f_equal.
       rewrite (@finite_key_aligned sx mx ex (Z.min ex ey)) by lia.
       rewrite (@finite_key_aligned sy my ey (Z.min ex ey)) by lia.
       assert (P : 0 < 2 ^ (Z.min ex ey + 1074)) by (apply Z.pow_pos_nonneg; lia).
       rewrite <- Zmult_compare_compat_r by lia.
       rewrite <- Z.compare_sub. reflexivity. }
  all: try destruct sx; try destruct sy; cbn [SFsub SFcompare key cond_Zopp negb];
    first [ left; split; [reflexivity|lia] | right; by_compare ].
Qed.

End SFFacts.

Module NumOrder.

Import SF SFFacts.
Local Open Scope float_scope.

Lemma is_nan_Prim2SF (x : float) : is_nan x = true <-> Prim2SF x = S754_nan.
Proof.
  unfold is_nan. rewrite eqb_spec, negb_true_iff. split.
  - intros E. destruct (Prim2SF x) eqn:P; try reflexivity; exfalso.
    all: assert (N : number (Prim2SF x))
           by (split; [apply Prim2SF_valid | rewrite P; discriminate]).
    all: rewrite <- P in E; unfold SFeqb in E;
         rewrite (compare_key N N), Z.compare_refl in E; discriminate.
  - now intros ->.
Qed.

Lemma number_Prim2SF (x : float) : is_nan x = false -> number (Prim2SF x).
Proof.
  intros N. split; [apply Prim2SF_valid|].
  intros E. apply is_nan_Prim2SF in E. congruence.
Qed.

Lemma ltb_key (x y : float) :
  is_nan x = false -> is_nan y = false -> (x <? y) = (Num.key x <? Num.key y)%Z.
Proof.
  intros Nx Ny. rewrite ltb_spec. unfold SFltb, Num.key, Z.ltb.
  now rewrite (compare_key (number_Prim2SF x Nx) (number_Prim2SF y Ny)).
Qed.

Lemma eqb_key (x y : float) :
  is_nan x = false -> is_nan y = false -> (x =? y) = (Num.key x =? Num.key y)%Z.
Proof.
  intros Nx Ny. rewrite eqb_spec, Z.eqb_compare. unfold SFeqb, Num.key.
  now rewrite (compare_key (number_Prim2SF x Nx) (number_Prim2SF y Ny)).
Qed.

(** The sign that [sort] reads off a difference is the order of the operands. *)
Lemma sub_negative (x y : float) :
  is_nan x = false -> is_nan y = false ->
  ((if is_nan (x - y) then 0 else x - y) <? 0) = (Num.key x <? Num.key y)%Z.
Proof.
  intros Nx Ny.
  destruct (sub_compare (number_Prim2SF x Nx) (number_Prim2SF y Ny)) as [[E K]|C].
  - fold (SF64sub (Prim2SF x) (Prim2SF y)) in E. rewrite <- sub_spec in E.
    apply is_nan_Prim2SF in E. rewrite E. unfold Num.key. rewrite K.
    now rewrite Z.ltb_irrefl.
  - fold (SF64sub (Prim2SF x) (Prim2SF y)) in C. rewrite <- sub_spec in C.
    destruct (is_nan (x - y)) eqn:N.
    + apply is_nan_Prim2SF in N. rewrite N in C. discriminate.
    + rewrite ltb_spec. unfold SFltb.
      change (Prim2SF 0) with (S754_zero false). rewrite C. reflexivity.
Qed.


Lemma add_nan_r (x y : float) : is_nan y = true -> is_nan (x + y) = true.
Proof.
  rewrite !is_nan_Prim2SF, add_spec. intros ->. now destruct (Prim2SF x).
Qed.

Lemma div_nan_l (x y : float) : is_nan x = true -> is_nan (x / y) = true.
Proof.
  rewrite !is_nan_Prim2SF, div_spec. now intros ->.
Qed.


End NumOrder.

(** ** Candidate generation *)

Section Candidates.

Context `{MathLib}.

(** C2. Whatever the origin and the radius (so in particular for an origin
    away from the poles and a positive radius), [generateCandidatePoints]
    returns exactly nine points: the origin itself, unchanged, and then one
    point per compass bearing 0, 45, 90, 135, 180, 225, 270, 315, in that
    order, each built from its bearing by the loop body. *)
Theorem generateCandidatePoints_nine (lat0 lon0 radiusKm : float) :
  let latDelta := (radiusKm / 111)%float in
  let lonDelta := (radiusKm / (111 * Math_cos (lat0 * degToRad)))%float in
  let at_bearing (angleDeg : float) :=
    {| lat := (lat0 + latDelta * Math_cos (angleDeg * degToRad))%float;
       lon := (lon0 + lonDelta * Math_sin (angleDeg * degToRad))%float |} in
  List.length (generateCandidatePoints lat0 lon0 radiusKm) = 9 /\
  generateCandidatePoints lat0 lon0 radiusKm =
    {| lat := lat0; lon := lon0 |}
      :: map at_bearing [0; 45; 90; 135; 180; 225; 270; 315]%float.
Proof.
  split; reflexivity.
Qed.


End Candidates.

(** ** Collecting the evaluations *)

Section Collecting.

Context {W : Type} `{Host W} `{StringConv}.

Lemma attempts_sites (points : list Point) : forall s,
  map fst (fst (attempts points s)) = points.
Proof.
  induction points as [|pt rest IH]; intros s; cbn [attempts]; [reflexivity|].
  destruct (getWeather (lat pt) (lon pt) s) as [r s1].
  match goal with |- context [attempts rest ?s2] =>
    specialize (IH s2); destruct (attempts rest s2) as [outcomes s3] end.
  cbn in *. now rewrite IH.
Qed.

Lemma collect_attempts (points : list Point) : forall results s,
  collect points results s =
    (Ok (results ++ successes (fst (attempts points s))), snd (attempts points s)).
Proof.
  induction points as [|pt rest IH]; intros results s; cbn [collect attempts].
  - unfold ret, successes. cbn. now rewrite app_nil_r.
  - unfold bind at 1, try_catch, bind at 1.
    destruct (getWeather (lat pt) (lon pt) s) as [[data|err] s1].
    + unfold ret at 1. rewrite IH.
      destruct (attempts rest s1) as [outcomes s3]. cbn.
      unfold push. rewrite <- app_assoc. reflexivity.
    + unfold bind, log, ret. cbn [snd]. rewrite IH.
      match goal with |- context [attempts rest ?s2] =>
        destruct (attempts rest s2) as [outcomes s3] end.
      reflexivity.
Qed.

Lemma successes_subseq (outcomes : list (Point * result Weather)) :
  Subseq (map site (successes outcomes)) (map fst outcomes).
Proof.
  induction outcomes as [|[pt [data|err]] rest IH]; cbn.
  - constructor.
  - destruct pt. apply Subseq_keep, IH.
  - apply Subseq_skip, IH.
Qed.

(** C10. Before the sort, the list [findBestWeather] has built is exactly
    the entries of the candidates whose [getWeather] call succeeded, the
    calls being made one at a time in candidate order: the sites of the
    entries are the candidate list with the failed candidates left out, in
    the same relative order. *)
Theorem collect_successes_in_order (points : list Point) (s : State W) :
  let outcomes := fst (attempts points s) in
  map fst outcomes = points /\
  fst (collect points [] s) = Ok (successes outcomes) /\
  Subseq (map site (successes outcomes)) points.
Proof.
  cbv zeta. rewrite collect_attempts. cbn [fst app].
  split; [apply attempts_sites|]. split; [reflexivity|].
  rewrite <- (attempts_sites points s) at 2. apply successes_subseq.
Qed.

End Collecting.

(** ** The sort and the selection *)

Section Sorting.

Context {A : Type} (comparefn : A -> A -> float).

Lemma insert_Permutation (x : A) (sorted : list A) :
  Permutation (insert comparefn x sorted) (x :: sorted).
Proof.
  induction sorted as [|y rest IH]; cbn [insert]; [reflexivity|].
  destruct (SortCompare comparefn y x <? 0)%float; [|reflexivity].
  rewrite IH. apply perm_swap.
Qed.

Lemma sort_Permutation (arr : list A) : Permutation (sort comparefn arr) arr.
Proof.
  induction arr as [|x rest IH]; cbn; [constructor|].
  fold (sort comparefn rest). rewrite insert_Permutation. now constructor.
Qed.

Lemma sort_hd_none (arr : list A) :
  hd_error (sort comparefn arr) = None <-> arr = [].
Proof.
  split; intros E.
  - destruct (sort comparefn arr) eqn:S; [|discriminate].
    apply Permutation_nil. rewrite <- S. apply sort_Permutation.
  - now subst.
Qed.

Lemma sort_hd_In (arr : list A) (x : A) :
  hd_error (sort comparefn arr) = Some x -> In x arr.
Proof.
  intros E. apply (Permutation_in x (sort_Permutation arr)).
  destruct (sort comparefn arr); [discriminate|]. injection E as ->. now left.
Qed.

End Sorting.

Section Selecting.

Context {W : Type} `{Host W} `{StringConv}.

Lemma fetches_app (t1 t2 : list Event) : fetches (t1 ++ t2) = fetches t1 ++ fetches t2.
Proof. apply flat_map_app. Qed.

Lemma getWeather_trace (la lo : float) (s : State W) :
  trace (snd (getWeather la lo s)) = trace s ++ [EvFetch (WeatherRequest la lo)].
Proof.
  unfold getWeather, bind, fetch, set_world, push. cbn.
  destruct (proxiedFetch (WeatherRequest la lo) (world s)) as [[resp|err] w]; cbn;
    [|reflexivity].
  destruct (ok resp); cbn; [|reflexivity].
  unfold lift. destruct (json resp); reflexivity.
Qed.

Lemma attempts_fetches (points : list Point) : forall s,
  fetches (trace (snd (attempts points s))) =
    fetches (trace s) ++ map request_of points.
Proof.
  induction points as [|pt rest IH]; intros s; cbn [attempts map].
  - cbn. now rewrite app_nil_r.
  - pose proof (getWeather_trace (lat pt) (lon pt) s) as T.
    destruct (getWeather (lat pt) (lon pt) s) as [r s1]. cbn [snd] in T.
    match goal with |- context [attempts rest ?s2] =>
      assert (F : fetches (trace s2) = fetches (trace s) ++ [request_of pt]);
      [|specialize (IH s2); destruct (attempts rest s2) as [outcomes s3]] end.
    + destruct r; cbn; unfold push; rewrite T, ?fetches_app; cbn;
        now rewrite ?app_nil_r.
    + cbn [snd] in *. rewrite IH, F, <- app_assoc. reflexivity.
Qed.

Lemma findBestWeather_unfold (points : list Point) (s : State W) :
  findBestWeather points s =
    (Ok (selectBest (successes (fst (attempts points s)))),
     snd (attempts points s)).
Proof.
  unfold findBestWeather, bind. rewrite collect_attempts. reflexivity.
Qed.

Lemma successes_nil (outcomes : list (Point * result Weather)) :
  successes outcomes = [] <-> Forall failed outcomes.
Proof.
  induction outcomes as [|[pt [data|err]] rest IH]; cbn.
  - split; auto.
  - split; [discriminate|]. intros F. inversion F as [|? ? [err E] ?]. discriminate.
  - rewrite IH. split; intros F.
    + constructor; [now exists err | assumption].
    + now inversion F.
Qed.

(** C4. A candidate whose fetch or evaluation throws does not stop
    [findBestWeather]: the function always returns normally; every candidate
    is requested, in order, whatever happened to the earlier ones; the ranked
    list is a rearrangement of the entries of the candidates that did not
    fail, and its first element is what is returned; the result is absent
    exactly when every candidate failed, and [showResult] then shows the
    no-site card instead of raising an error. *)
Theorem findBestWeather_survives_failures (points : list Point) (s : State W) :
  let outcomes := fst (attempts points s) in
  (exists ranked,
     fst (findBestWeather points s) = Ok (hd_error ranked) /\
     Permutation ranked (successes outcomes) /\
     (hd_error ranked = None <-> Forall failed outcomes)) /\
  map fst outcomes = points /\
  fetches (trace (snd (findBestWeather points s))) =
    fetches (trace s) ++ map request_of points /\
  (forall place radiusKm (s0 : State W),
     fst (showResult None place radiusKm s0) = Ok tt /\
     resultHtml (snd (showResult None place radiusKm s0)) = NoSiteCard).
Proof.
  cbv zeta. rewrite findBestWeather_unfold. unfold selectBest. cbn [fst snd].
  split; [|split; [apply attempts_sites|split; [apply attempts_fetches|]]].
  - exists (sort compareResults (successes (fst (attempts points s)))).
    split; [reflexivity|]. split; [apply sort_Permutation|].
    rewrite sort_hd_none. apply successes_nil.
  - intros place radiusKm s0. split; reflexivity.
Qed.

End Selecting.

(** ** The ranking *)

Section Ranking.

Local Open Scope float_scope.

Lemma numeric_inv (e : Evaluation) :
  numeric e = true -> is_nan (dryness e) = false /\ is_nan (precip e) = false.
Proof.
  unfold numeric. rewrite andb_true_iff, !negb_true_iff. tauto.
Qed.

Lemma better_rank (a b : Evaluation) :
  numeric a = true -> numeric b = true ->
  better a b = true <->
  (Num.key (dryness b) < Num.key (dryness a) \/
   (Num.key (dryness a) = Num.key (dryness b) /\
    Num.key (precip a) < Num.key (precip b)))%Z.
Proof.
  intros Na Nb. apply numeric_inv in Na as [Da Pa]. apply numeric_inv in Nb as [Db Pb].
  unfold better.
  rewrite (NumOrder.ltb_key _ _ Db Da), (NumOrder.eqb_key _ _ Da Db),
    (NumOrder.ltb_key _ _ Pa Pb).
  rewrite orb_true_iff, andb_true_iff, !Z.ltb_lt, Z.eqb_eq. reflexivity.
Qed.

(** The comparison function puts [a] in front exactly when [a] ranks ahead. *)
Lemma compareResults_better (a b : Evaluation) :
  numeric a = true -> numeric b = true ->
  (SortCompare compareResults a b <? 0) = better a b.
Proof.
  intros Na Nb. apply numeric_inv in Na as [Da Pa]. apply numeric_inv in Nb as [Db Pb].
  unfold SortCompare, compareResults, Num.strict_neq, better.
  rewrite (NumOrder.eqb_key _ _ Db Da), (NumOrder.eqb_key _ _ Da Db),
    (NumOrder.ltb_key _ _ Db Da), (NumOrder.ltb_key _ _ Pa Pb).
  destruct (Z.eqb_spec (Num.key (dryness b)) (Num.key (dryness a))) as [E|E];
    cbn [negb].
  - rewrite (NumOrder.sub_negative _ _ Pa Pb), E, Z.ltb_irrefl, Z.eqb_refl.
    reflexivity.
  - rewrite (NumOrder.sub_negative _ _ Db Da).
    destruct (Z.eqb_spec (Num.key (dryness a)) (Num.key (dryness b)));
      [congruence|].
    now rewrite andb_false_l, orb_false_r.
Qed.

Lemma better_trans (a b c : Evaluation) :
  numeric a = true -> numeric b = true -> numeric c = true ->
  better a b = true -> better b c = true -> better a c = true.
Proof.
  intros Na Nb Nc. rewrite !better_rank by assumption. lia.
Qed.

Lemma not_better_trans (a b c : Evaluation) :
  numeric a = true -> numeric b = true -> numeric c = true ->
  better a b = false -> better b c = false -> better a c = false.
Proof.
  intros Na Nb Nc. rewrite <- !not_true_iff_false, !better_rank by assumption. lia.
Qed.

Lemma selectBest_cons (x : Evaluation) (rest : list Evaluation) :
  selectBest (x :: rest) =
    match selectBest rest with
    | None => Some x
    | Some y => if SortCompare compareResults y x <? 0 then Some y else Some x
    end.
Proof.
  unfold selectBest. cbn [sort fold_right]. fold (sort compareResults rest).
  destruct (sort compareResults rest) as [|y sorted]; cbn [insert hd_error];
    [reflexivity|].
  now destruct (SortCompare compareResults y x <? 0).
Qed.

(** C1, as the code has it. On every list of evaluations whose scores are
    numbers, [findBestWeather]'s selection returns nothing when the list is
    empty and otherwise the entry that is first by dryness score descending,
    then total precipitation ascending, the earliest-listed one among those
    that tie on both. *)
Theorem selectBest_first_best (results : list Evaluation) :
  Forall (fun e => numeric e = true) results ->
  match selectBest results with
  | None => results = []
  | Some best => first_best best results
  end.
Proof.
  induction results as [|x rest IH]; intros N; [reflexivity|].
  inversion N as [|? ? Nx Nrest]; subst. specialize (IH Nrest).
  rewrite selectBest_cons.
  destruct (selectBest rest) as [y|] eqn:S.
  - destruct IH as (earlier & later & -> & Hearlier & Hlater).
    assert (Ny : numeric y = true).
    { rewrite Forall_forall in Nrest. apply Nrest, in_elt. }
    rewrite (@compareResults_better y x Ny Nx).
    destruct (better y x) eqn:B.
    + exists (x :: earlier), later. split; [reflexivity|]. split; [|assumption].
      now constructor.
    + exists [], (earlier ++ y :: later). split; [reflexivity|].
      split; [constructor|].
      rewrite Forall_forall in *. intros e I.
      assert (Ne : numeric e = true) by now apply Nrest.
      apply in_app_or in I as [I|[<-|I]]; [|assumption|].
      * destruct (better e x) eqn:Bex; [|reflexivity].
        rewrite <- B. symmetry.
        apply (@better_trans y e x Ny Ne Nx); [now apply Hearlier | assumption].
      * apply (@not_better_trans e y x Ne Ny Nx); [now apply Hlater | assumption].
  - subst rest. exists [], []. repeat split; constructor.
Qed.

End Ranking.

(** ** The site evaluation *)

Section Evaluating.

Context `{StringConv}.
Local Open Scope float_scope.

Lemma addHour_numbers (drynessSum precipSum : float) (h : JSValue) :
  addHour (drynessSum, precipSum) h =
    match hour_numbers h with
    | Ok (chance, millimetres) => Ok (drynessSum + chance, precipSum + millimetres)
    | Throw e => Throw e
    end.
Proof.
  unfold addHour, hour_numbers.
  destruct (JS.get h "chanceofremdry") as [c|]; cbn [bind_result]; [|reflexivity].
  destruct (JS.Number c); cbn [bind_result]; [|reflexivity].
  destruct (JS.get h "precipMM") as [p|]; cbn [bind_result]; [|reflexivity].
  destruct (JS.parseFloat p); reflexivity.
Qed.

Lemma forEach_addHour (hourly : list JSValue) (numbers : list (float * float)) :
  read_as hourly numbers ->
  forall drynessSum precipSum,
  forEach_result hourly addHour (drynessSum, precipSum) =
    Ok (fold_left add (map fst numbers) drynessSum,
        fold_left add (map snd numbers) precipSum).
Proof.
  induction 1 as [|h [x y] rest numbers Rh _ IH]; intros d p; [reflexivity|].
  cbn [forEach_result map fold_left fst snd]. rewrite addHour_numbers, Rh.
  apply IH.
Qed.


(** A response whose first forecast day is missing, or whose [hourly] is not
    an array, is refused as incomplete. *)
Lemma evaluate_incomplete (data days weather : JSValue) :
  JS.get data "weather" = Ok days ->
  (if JS.truthy days then JS.index0 days else Ok days) = Ok weather ->
  JS.truthy weather = false \/
  (exists hourly, JS.get weather "hourly" = Ok hourly /\ JS.isArray hourly = false) ->
  evaluate data = Throw (Error "Unvollständige Wetterdaten erhalten.").
Proof.
  intros G I D. unfold evaluate. rewrite G. cbn [bind_result]. rewrite I.
  cbn [bind_result]. destruct D as [F|(hourly & Gh & A)].
  - now rewrite F.
  - destruct (JS.truthy weather); [|reflexivity]. cbn [negb]. rewrite Gh.
    cbn [bind_result]. destruct hourly; try reflexivity. discriminate.
Qed.




(** C5, the defect. A response with an empty hourly series is not refused:
    the evaluation returns normally, with the dryness score [0 / 0], NaN. *)
Theorem evaluate_empty_series :
  evaluate (Fixture.forecast []) =
    Ok {| w_dryness := nan; w_precip := 0; w_nearest := JString "" |}.
Proof. reflexivity. Qed.

End Evaluating.

(** ** What the selection can return *)

Section Returned.

Context {W : Type} `{Host W} `{StringConv}.

(** C9, as the code has it. The selection filters nothing: what
    [findBestWeather] returns is one of the evaluations it collected, so its
    dryness score is a number whenever all the collected ones are (and the
    result is absent only when nothing was collected). *)
Theorem findBestWeather_returns_collected (points : list Point) (s : State W) :
  let results := successes (fst (attempts points s)) in
  match fst (findBestWeather points s) with
  | Ok (Some best) =>
      In best results /\
      (Forall (fun e => is_nan (dryness e) = false) results ->
       is_nan (dryness best) = false)
  | Ok None => results = []
  | Throw _ => False
  end.
Proof.
  cbv zeta. rewrite findBestWeather_unfold. cbn [fst].
  destruct (selectBest (successes (fst (attempts points s)))) as [best|] eqn:S.
  - apply sort_hd_In in S. split; [assumption|].
    intros F. rewrite Forall_forall in F. now apply F.
  - now apply sort_hd_none in S.
Qed.

End Returned.

(** ** The poles *)

Section Poles.

Context `{MathLib}.
Local Open Scope float_scope.


(** With the cosine that engines compute at a right angle,
    [6.123233995736766e-17], nothing is infinite: the candidate at bearing 90
    of the origin (90, 0), radius 10, has the longitude
    [1471282824612195.5]. *)
Lemma generateCandidatePoints_pole_rounded :
  Math_cos (90 * degToRad) = 0x1.1a62633145c07p-54 ->
  Math_sin (90 * degToRad) = 1 ->
  nth_error (generateCandidatePoints 90 0 10) 3 =
    Some {| lat := 90; lon := 1471282824612195.5 |}.
Proof.
  intros C S. unfold generateCandidatePoints, directions, forEach, push.
  cbn [fold_left app nth_error]. now rewrite C, S.
Qed.

End Poles.

(** ** The submit handler *)

Section Submitting.

Context {W : Type} `{Host W} `{StringConv} `{MathLib}.

Lemma attempts_trace (points : list Point) : forall s : State W,
  exists events, trace (snd (attempts points s)) = trace s ++ events.
Proof.
  induction points as [|pt rest IH]; intros s; cbn [attempts].
  - exists []. cbn. now rewrite app_nil_r.
  - pose proof (getWeather_trace (lat pt) (lon pt) s) as T.
    destruct (getWeather (lat pt) (lon pt) s) as [r s1]. cbn [snd] in T.
    match goal with |- context [attempts rest ?s2] =>
      assert (E : exists events, trace s2 = trace s ++ events);
      [|destruct (IH s2) as [events2 E2]; destruct (attempts rest s2) as [outcomes s3]] end.
    + destruct r; cbn; unfold push; rewrite T, <- ?app_assoc; eauto.
    + destruct E as [events1 E1]. cbn [snd] in *.
      exists (events1 ++ events2). now rewrite E2, E1, app_assoc.
Qed.

(** C7, as the code has it. The guard of the handler looks at the place name
    and at NaN only. With an empty place name or a radius that parses to NaN
    the handler returns at once, without an error and with nothing changed:
    no geocoding, no generation, no request. Any other radius, zero,
    negative and infinite ones included, passes: the place is geocoded next
    and, when an origin is found, [generateCandidatePoints] is called with
    that radius. *)
Theorem submit_guard (locationValue radiusValue : string) (s : State W) :
  let location := trim locationValue in
  let radiusKm := ParseFloatString radiusValue in
  (location = ""%string \/ is_nan radiusKm = true ->
   submit locationValue radiusValue s = (Ok tt, s)) /\
  (location <> ""%string -> is_nan radiusKm = false ->
   exists events,
     trace (snd (submit locationValue radiusValue s)) =
       trace s ++ EvGeocode location :: events /\
     forall origin w,
       getCoordinates location (world s) = (Ok (Some origin), w) ->
       exists events',
         events = EvGenerate (coord_lat origin) (coord_lon origin) radiusKm :: events').
Proof.
  cbv zeta. unfold submit, Num.isNaN. split.
  - intros [E|N].
    + now rewrite E.
    + rewrite N. now rewrite orb_true_r.
  - intros E N. apply String.eqb_neq in E. rewrite E, N. cbn [orb].
    unfold try_catch_finally, try_catch, bind, geocode, resultSection_hidden,
      loadingSection_hidden, loadingSection_textContent, set_world, push, ret.
    cbn.
    destruct (getCoordinates (trim locationValue) (world s)) as [[[origin|]|err] w];
      cbn.
    + match goal with |- context [findBestWeather ?pts ?s1] =>
        rewrite (findBestWeather_unfold pts s1);
        destruct (attempts_trace pts s1) as [events T];
        destruct (attempts pts s1) as [outcomes s2] end.
      cbn [fst snd] in *. cbn in T.
      exists (EvGenerate (coord_lat origin) (coord_lon origin)
                (ParseFloatString radiusValue) :: events).
      split.
      * destruct (selectBest (successes outcomes)); cbn; rewrite T, <- !app_assoc;
          reflexivity.
      * intros origin' w' I. injection I as <- <-. eauto.
    + eexists. split; [now rewrite <- app_assoc|]. intros ? ? I. discriminate.
    + eexists. split; [now rewrite <- app_assoc|]. intros ? ? I. discriminate.
Qed.

End Submitting.

(** ** The properties on the scenarios *)

Module Scenario.

Import Fixture.
Local Open Scope float_scope.

(** Of the four evaluations the second is returned: it ties with the first
    and the fourth on dryness, has less precipitation than the first, and
    comes before the fourth. *)
Lemma selectBest_first_best_witness :
  Forall (fun e => numeric e = true) ranked_four /\
  selectBest ranked_four = nth_error ranked_four 1 /\
  match selectBest ranked_four with
  | None => ranked_four = []
  | Some best => first_best best ranked_four
  end.
Proof.
  split; [repeat constructor|]. split; [reflexivity|].
  apply (@selectBest_first_best ranked_four). repeat constructor.
Defined.

(** C1 fails on a list with a NaN score: of dryness 50, NaN, 80 the entry
    with 50 is returned, although the later entry with 80 ranks ahead of it. *)
Lemma selectBest_nan_not_first_best :
  ~ (forall results,
       match selectBest results with
       | None => results = []
       | Some best => first_best best results
       end).
Proof.
  intros C. specialize (C with_nan).
  change (selectBest with_nan) with (Some (entry 50 0)) in C.
  destruct C as (earlier & later & E & Hearlier & Hlater).
  destruct earlier as [|x earlier].
  - injection E as <-. inversion Hlater as [|? ? _ Hrest]; subst.
    inversion Hrest as [|? ? B _]; subst. discriminate B.
  - injection E as <- _. inversion Hearlier as [|? ? B _]; subst. discriminate B.
Qed.



(** A radius that is no number: nothing happens. *)
Lemma submit_guard_witness :
  is_nan (@ParseFloatString conv "n/a") = true /\
  @submit World host conv engine "Berlin" "n/a" offline = (Ok tt, offline).
Proof.
  split; [reflexivity|].
  apply (@submit_guard World host conv engine "Berlin" "n/a" offline).
  right. reflexivity.
Defined.

(** C7 fails: the radius -5 is not refused. The handler returns without an
    error after geocoding the place, calling [generateCandidatePoints] with
    -5 and requesting the forecast of the origin. *)
Lemma submit_negative_radius_runs :
  let run := @submit World host conv engine "Berlin" "-5" offline in
  fst run = Ok tt /\
  firstn 3 (trace (snd run)) =
    [ EvGeocode "Berlin";
      EvGenerate 52.52 13.405 (-5);
      EvFetch (WeatherRequest 52.52 13.405) ] /\
  resultHtml (snd run) = NoSiteCard.
Proof. cbv zeta. repeat split; vm_compute; reflexivity. Qed.



(** Two sites with numeric scores: the one returned has a numeric score. *)
Lemma findBestWeather_returns_collected_witness :
  exists best,
    fst (@findBestWeather World host conv two_sites two_dry) = Ok (Some best) /\
    is_nan (dryness best) = false.
Proof.
  pose proof (@findBestWeather_returns_collected World host conv two_sites two_dry) as C.
  cbv zeta in C.
  destruct (fst (@findBestWeather World host conv two_sites two_dry))
    as [[best|]|err] eqn:E.
  - exists best. split; [reflexivity|]. apply C. repeat constructor.
  - discriminate C.
  - destruct C.
Defined.

(** C9 fails: the forecast of the first site has an empty hourly series, so
    its dryness score is NaN; the second site scores 80. The first one is
    returned. *)
Lemma findBestWeather_returns_nan :
  exists best,
    fst (@findBestWeather World host conv two_sites empty_then_dry) = Ok (Some best) /\
    is_nan (dryness best) = true /\
    successes (fst (@attempts World host conv two_sites empty_then_dry)) =
      [ {| e_lat := 52.52; e_lon := 13.405; dryness := nan; precip := 0;
           nearest := JString "" |};
        {| e_lat := 52.61009009009009; e_lon := 13.405; dryness := 80; precip := 0.5;
           nearest := JString "" |} ].
Proof. eexists. repeat split; vm_compute; reflexivity. Qed.

End Scenario.

(** * More properties *)

Module NumMore.
Import SF SFFacts NumOrder.
Local Open Scope float_scope.

Lemma sub_positive (x y : float) :
  is_nan x = false -> is_nan y = false ->
  (0 <? (if is_nan (x - y) then 0 else x - y)) = (Num.key y <? Num.key x)%Z.
Proof.
  intros Nx Ny.
  destruct (sub_compare (number_Prim2SF x Nx) (number_Prim2SF y Ny)) as [[E K]|C].
  - fold (SF64sub (Prim2SF x) (Prim2SF y)) in E. rewrite <- sub_spec in E.
    apply is_nan_Prim2SF in E. rewrite E. unfold Num.key. rewrite K.
    now rewrite Z.ltb_irrefl.
  - fold (SF64sub (Prim2SF x) (Prim2SF y)) in C. rewrite <- sub_spec in C.
    destruct (is_nan (x - y)) eqn:N.
    + apply is_nan_Prim2SF in N. rewrite N in C. discriminate.
    + rewrite (ltb_key 0 (x - y) eq_refl N).
      pose proof (compare_key (number_Prim2SF (x - y) N) (number_Prim2SF 0 eq_refl)) as C2.
      change (Prim2SF 0) with (S754_zero false) in C2. rewrite C in C2.
      injection C2 as C2. change (SF.key (S754_zero false)) with 0%Z in C2.
      change (Num.key 0) with 0%Z. fold (Num.key (x - y)) in C2.
      unfold Num.key at 2 3. unfold Z.ltb. rewrite (Z.compare_antisym (Num.key (x - y)) 0), <- C2.
      rewrite (Z.compare_antisym (SF.key (Prim2SF x)) (SF.key (Prim2SF y))).
      reflexivity.
Qed.

Lemma eqb_nan_l (x y : float) : is_nan x = true -> (x =? y) = false.
Proof.
  intros N. apply is_nan_Prim2SF in N. now rewrite eqb_spec, N.
Qed.

Lemma eqb_nan_r (x y : float) : is_nan y = true -> (x =? y) = false.
Proof.
  intros N. apply is_nan_Prim2SF in N. rewrite eqb_spec, N.
  now destruct (Prim2SF x).
Qed.

Lemma sub_nan_l (x y : float) : is_nan x = true -> is_nan (x - y) = true.
Proof. rewrite !is_nan_Prim2SF, sub_spec. now intros ->. Qed.

Lemma sub_nan_r (x y : float) : is_nan y = true -> is_nan (x - y) = true.
Proof. rewrite !is_nan_Prim2SF, sub_spec. intros ->. now destruct (Prim2SF x). Qed.

Lemma mul_nan_l (x y : float) : is_nan x = true -> is_nan (x * y) = true.
Proof. rewrite !is_nan_Prim2SF, mul_spec. now intros ->. Qed.

End NumMore.


Module SFSign.
Import SF SFMore SFFacts.
Local Open Scope Z_scope.







(** *** Small integers round to finite numbers *)





End SFSign.

Module NumSign.
Import SF SFMore SFFacts NumOrder SFSign.
Local Open Scope float_scope.





End NumSign.

(** ** The comparison function *)

Section Comparing.

Local Open Scope float_scope.

(** X1. On entries whose scores are numbers the comparison function is
    consistent: it is negative exactly when its first argument ranks ahead,
    positive exactly when its second argument does, and ranking ahead is
    asymmetric and transitive. *)
Theorem compareResults_consistent (a b c : Evaluation) :
  numeric a = true -> numeric b = true -> numeric c = true ->
  (SortCompare compareResults a b <? 0) = better a b /\
  (0 <? SortCompare compareResults a b) = better b a /\
  (better a b = true -> better b a = false) /\
  (better a b = true -> better b c = true -> better a c = true).
Proof.
  intros Na Nb Nc.
  split; [exact (@compareResults_better a b Na Nb)|].
  split.
  - pose proof (numeric_inv a Na) as [Da Pa]. pose proof (numeric_inv b Nb) as [Db Pb].
    unfold SortCompare, compareResults, Num.strict_neq, better.
    rewrite (NumOrder.eqb_key _ _ Db Da), (NumOrder.ltb_key _ _ Da Db),
      (NumOrder.ltb_key _ _ Pb Pa).
    destruct (Z.eqb_spec (Num.key (dryness b)) (Num.key (dryness a))) as [E|E];
      cbn [negb].
    + rewrite (NumMore.sub_positive _ _ Pa Pb), E, Z.ltb_irrefl. reflexivity.
    + rewrite (NumMore.sub_positive _ _ Db Da).
      now rewrite andb_false_l, orb_false_r.
  - split.
    + intros B. apply not_true_iff_false. revert B.
      rewrite !better_rank by assumption. lia.
    + exact (@better_trans a b c Na Nb Nc).
Qed.

(** X2. An entry whose dryness score is NaN compares as equal to every
    entry, whichever way round the two are given. *)
Theorem compareResults_nan_ties (a b : Evaluation) :
  is_nan (dryness a) = true ->
  SortCompare compareResults a b = 0 /\ SortCompare compareResults b a = 0.
Proof.
  intros N. unfold SortCompare, compareResults, Num.strict_neq.
  rewrite (NumMore.eqb_nan_r (dryness b) (dryness a) N),
    (NumMore.eqb_nan_l (dryness a) (dryness b) N). cbn [negb].
  now rewrite (NumMore.sub_nan_r (dryness b) (dryness a) N),
    (NumMore.sub_nan_l (dryness a) (dryness b) N).
Qed.

Lemma selectBest_In (results : list Evaluation) (best : Evaluation) :
  selectBest results = Some best -> In best results.
Proof. apply sort_hd_In. Qed.

(** No entry of a list of numeric entries ranks ahead of the selected one. *)
Lemma selectBest_unbeaten (results : list Evaluation) : forall best,
  Forall (fun e => numeric e = true) results ->
  selectBest results = Some best ->
  forall e, In e results -> better e best = false.
Proof.
  induction results as [|x rest IH]; intros best N S e I; [destruct I|].
  inversion N as [|? ? Nx Nrest]; subst.
  rewrite selectBest_cons in S.
  pose proof (proj1 (Forall_forall _ _) Nrest) as Nall.
  assert (Irr : forall u, numeric u = true -> better u u = false).
  { intros u Nu. apply not_true_iff_false. rewrite better_rank by assumption. lia. }
  destruct (selectBest rest) as [y|] eqn:Sr.
  - assert (Ny : numeric y = true) by (apply Nall, selectBest_In, Sr).
    rewrite (@compareResults_better y x Ny Nx) in S.
    destruct (better y x) eqn:B; injection S as <-.
    + destruct I as [<-|I]; [|now apply (IH y Nrest eq_refl)].
      apply not_true_iff_false. intros C.
      revert B C. rewrite !better_rank by assumption. lia.
    + destruct I as [<-|I]; [now apply Irr|].
      apply (@not_better_trans e y x (Nall e I) Ny Nx); [|assumption].
      now apply (IH y Nrest eq_refl).
  - injection S as <-. apply sort_hd_none in Sr. subst rest.
    destruct I as [<-|[]]. now apply Irr.
Qed.

(** X3. The order of the list matters for ties only: when the entries with
    numeric scores are listed in another order, the selected entry has the
    same dryness score and the same total precipitation. *)
Theorem selectBest_order_independent (results results' : list Evaluation)
  (best : Evaluation) :
  Forall (fun e => numeric e = true) results ->
  Permutation results results' ->
  selectBest results = Some best ->
  exists best',
    selectBest results' = Some best' /\
    (dryness best' =? dryness best) = true /\
    (precip best' =? precip best) = true.
Proof.
  intros N P S.
  assert (N' : Forall (fun e => numeric e = true) results').
  { rewrite Forall_forall in *. intros e I. apply N.
    apply (Permutation_in e (Permutation_sym P) I). }
  destruct (selectBest results') as [best'|] eqn:S'.
  - exists best'. split; [reflexivity|].
    pose proof (selectBest_In _ S) as I. pose proof (selectBest_In _ S') as I'.
    pose proof (selectBest_unbeaten N S best' (Permutation_in _ (Permutation_sym P) I')) as B1.
    pose proof (selectBest_unbeaten N' S' best (Permutation_in _ P I)) as B2.
    rewrite Forall_forall in N, N'.
    pose proof (N best I) as Nb. pose proof (N' best' I') as Nb'.
    pose proof (numeric_inv _ Nb) as [Db Pb]. pose proof (numeric_inv _ Nb') as [Db' Pb'].
    rewrite (NumOrder.eqb_key _ _ Db' Db), (NumOrder.eqb_key _ _ Pb' Pb), !Z.eqb_eq.
    apply not_true_iff_false in B1, B2.
    rewrite better_rank in B1, B2 by assumption. lia.
  - apply sort_hd_none in S'. subst results'.
    apply Permutation_sym, Permutation_nil in P. subst results. discriminate S.
Qed.

End Comparing.

(** ** More on [findBestWeather] *)

Section Finding.

Context {W : Type} `{Host W} `{StringConv}.

Lemma successes_sites (outcomes : list (Point * result Weather)) (e : Evaluation) :
  In e (successes outcomes) -> In (site e) (map fst outcomes).
Proof.
  induction outcomes as [|[pt [data|err]] rest IH]; cbn; [tauto| |tauto].
  intros [<-|I]; [left; now destruct pt | right; now apply IH].
Qed.

(** X4. The site [findBestWeather] returns is one of the points it was
    given: its coordinates are those of a candidate, unchanged. *)
Theorem findBestWeather_site_is_candidate
  (points : list Point) (s : State W) (best : Evaluation) :
  fst (findBestWeather points s) = Ok (Some best) ->
  In (site best) points.
Proof.
  rewrite findBestWeather_unfold. cbn [fst]. intros E. injection E as E.
  apply sort_hd_In in E. apply successes_sites in E.
  now rewrite attempts_sites in E.
Qed.

Lemma warnings_app (t1 t2 : list Event) :
  warnings (t1 ++ t2) = warnings t1 ++ warnings t2.
Proof. apply flat_map_app. Qed.

Lemma attempts_warnings (points : list Point) : forall s : State W,
  warnings (trace (snd (attempts points s))) =
    warnings (trace s) ++ failures (fst (attempts points s)).
Proof.
  induction points as [|pt rest IH]; intros s; cbn [attempts].
  - cbn. now rewrite app_nil_r.
  - pose proof (getWeather_trace (lat pt) (lon pt) s) as T.
    destruct (getWeather (lat pt) (lon pt) s) as [r s1]. cbn [snd] in T.
    match goal with |- context [attempts rest ?s2] =>
      assert (F : warnings (trace s2) =
                  warnings (trace s) ++ failures [(pt, r)]);
      [|specialize (IH s2); destruct (attempts rest s2) as [outcomes s3]] end.
    + destruct r; cbn; unfold push; rewrite T, ?warnings_app; cbn;
        now rewrite ?app_nil_r.
    + cbn [fst snd] in *. rewrite IH, F, <- app_assoc. f_equal.
      destruct r; reflexivity.
Qed.

(** X5. [findBestWeather] warns once for every candidate that failed, in
    candidate order, with that candidate and what it threw, and never for a
    candidate that succeeded. *)
Theorem findBestWeather_warns_failures (points : list Point) (s : State W) :
  warnings (trace (snd (findBestWeather points s))) =
    warnings (trace s) ++ failures (fst (attempts points s)) /\
  List.length (failures (fst (attempts points s)))
    + List.length (successes (fst (attempts points s))) = List.length points.
Proof.
  rewrite findBestWeather_unfold. cbn [snd]. split; [apply attempts_warnings|].
  assert (C : forall outcomes : list (Point * result Weather),
             List.length (failures outcomes) + List.length (successes outcomes)
             = List.length (map fst outcomes)).
  { unfold failures, successes.
    induction outcomes as [|[pt [data|err]] rest IH]; cbn [flat_map map snd fst app];
      cbn [List.length]; lia. }
  now rewrite C, attempts_sites.
Qed.

Lemma getWeather_frame (la lo : float) (s : State W) :
  let s' := snd (getWeather la lo s) in
  resultHtml s' = resultHtml s /\ resultHidden s' = resultHidden s /\
  loadingText s' = loadingText s /\ loadingHidden s' = loadingHidden s.
Proof.
  unfold getWeather, bind, fetch, set_world, push. cbn.
  destruct (proxiedFetch (WeatherRequest la lo) (world s)) as [[resp|err] w]; cbn;
    [|tauto].
  destruct (ok resp); cbn; [|tauto].
  unfold lift. destruct (json resp); cbn; tauto.
Qed.

Lemma attempts_frame (points : list Point) : forall s : State W,
  let s' := snd (attempts points s) in
  resultHtml s' = resultHtml s /\ resultHidden s' = resultHidden s /\
  loadingText s' = loadingText s /\ loadingHidden s' = loadingHidden s.
Proof.
  induction points as [|pt rest IH]; intros s; cbn [attempts]; [cbn; tauto|].
  pose proof (getWeather_frame (lat pt) (lon pt) s) as F.
  destruct (getWeather (lat pt) (lon pt) s) as [r s1]. cbn [snd] in F. cbv zeta in F.
  match goal with |- context [attempts rest ?s2] =>
    assert (F2 : resultHtml s2 = resultHtml s /\ resultHidden s2 = resultHidden s /\
                 loadingText s2 = loadingText s /\ loadingHidden s2 = loadingHidden s);
    [|specialize (IH s2); destruct (attempts rest s2) as [outcomes s3]] end.
  - destruct r; cbn; tauto.
  - cbn [snd] in *. cbv zeta in IH. intuition congruence.
Qed.

(** X6. [findBestWeather] leaves the page alone: the result section and the
    loading indicator are after the call what they were before it. *)
Theorem findBestWeather_keeps_page (points : list Point) (s : State W) :
  let s' := snd (findBestWeather points s) in
  resultHtml s' = resultHtml s /\ resultHidden s' = resultHidden s /\
  loadingText s' = loadingText s /\ loadingHidden s' = loadingHidden s.
Proof.
  rewrite findBestWeather_unfold. cbn [snd]. apply attempts_frame.
Qed.

End Finding.

(** ** More on the site evaluation *)

Section EvaluatingMore.

Context `{StringConv}.
Local Open Scope float_scope.

(** X7. A response object is refused as incomplete, with the error
    [Unvollständige Wetterdaten erhalten.], when [weather] is missing or
    falsy, when it is an array that is empty or starts with a falsy day, and
    when the first day's [hourly] is anything but an array. *)
Theorem evaluate_refuses_missing_series (properties : list (string * JSValue)) :
  JS.truthy (JS.lookup "weather" properties) = false \/
  (exists days, JS.lookup "weather" properties = JArray days /\
                JS.truthy (hd JUndefined days) = false) \/
  (exists day days hourly,
     JS.lookup "weather" properties = JArray (day :: days) /\
     JS.truthy day = true /\
     JS.get day "hourly" = Ok hourly /\ JS.isArray hourly = false) ->
  evaluate (JObject properties) = Throw (Error "Unvollständige Wetterdaten erhalten.").
Proof.
  intros [F|[(days & Wd & F)|(day & days & hourly & Wd & T & G & A)]].
  - apply (@evaluate_incomplete _ (JObject properties) (JS.lookup "weather" properties)
             (JS.lookup "weather" properties)); [reflexivity| |now left].
    now rewrite F.
  - apply (@evaluate_incomplete _ (JObject properties) (JArray days)
             (hd JUndefined days)); [cbn; now rewrite Wd|reflexivity|now left].
  - apply (@evaluate_incomplete _ (JObject properties) (JArray (day :: days)) day);
      [cbn; now rewrite Wd|reflexivity|right; eauto].
Qed.

Lemma forEach_result_app {A S : Type} (body : S -> A -> result S) (l1 l2 : list A) :
  forall s, forEach_result (l1 ++ l2) body s =
            bind_result (forEach_result l1 body s) (forEach_result l2 body).
Proof.
  induction l1 as [|x l1 IH]; intros s; cbn [app forEach_result bind_result];
    [reflexivity|].
  destruct (body s x); [apply IH | reflexivity].
Qed.

(** On a well-shaped response with readable hours the evaluation gets as far
    as the name of the nearest place. *)
Lemma evaluate_after_series
  (data : JSValue) (hourly : list JSValue) (numbers : list (float * float)) :
  has_series data hourly ->
  read_as hourly numbers ->
  evaluate data =
    bind_result (nearestName data) (fun name =>
      Ok {| w_dryness := mean_of (map fst numbers);
            w_precip := sum_of (map snd numbers);
            w_nearest := name |}).
Proof.
  intros (properties & day & days & -> & Wd & Hd) R.
  unfold evaluate. cbn [JS.get bind_result]. rewrite Wd.
  cbn [JS.truthy JS.index0 hd bind_result negb JS.get]. rewrite Hd.
  rewrite (forEach_addHour R). cbn [bind_result]. unfold mean_of, sum_of.
  now rewrite length_map, (Forall2_length R).
Qed.

(** X8. On a response of the documented shape whose hours can all be read,
    the evaluation returns the arithmetic mean of the hourly dryness chances
    (their sum, added up from the left, over the number of hours) as the
    dryness score and the sum of the hourly precipitations as the total. *)
Theorem evaluate_mean_and_sum
  (data : JSValue) (hourly : list JSValue) (numbers : list (float * float))
  (name : JSValue) :
  has_series data hourly ->
  read_as hourly numbers ->
  nearestName data = Ok name ->
  exists w,
    evaluate data = Ok w /\
    w_dryness w =
      fold_left add (map fst numbers) 0 / Num.of_length (List.length hourly) /\
    w_precip w = fold_left add (map snd numbers) 0 /\
    w_nearest w = name.
Proof.
  intros S R N. rewrite (evaluate_after_series S R), N. cbn [bind_result].
  eexists. split; [reflexivity|]. cbn. unfold mean_of, sum_of.
  now rewrite length_map, (Forall2_length R).
Qed.

(** X9. One hour that cannot be read loses the whole site: the evaluation
    throws what the first such hour throws (a [TypeError] for an hour that
    is [null]), whatever the hours before and after it hold. *)
Theorem evaluate_first_unreadable_hour
  (data : JSValue) (before after : list JSValue) (bad : JSValue)
  (numbers : list (float * float)) (err : exn) :
  has_series data (before ++ bad :: after) ->
  read_as before numbers ->
  hour_numbers bad = Throw err ->
  evaluate data = Throw err.
Proof.
  intros (properties & day & days & -> & Wd & Hd) R B.
  unfold evaluate. cbn [JS.get bind_result]. rewrite Wd.
  cbn [JS.truthy JS.index0 hd bind_result negb JS.get]. rewrite Hd.
  rewrite forEach_result_app, (forEach_addHour R). cbn [bind_result forEach_result].
  now rewrite addHour_numbers, B.
Qed.



(** X11. A readable forecast is lost to a malformed place name: when the
    first entry of [nearest_area] has an [areaName] that is an empty array,
    reading the name throws a [TypeError] and so does the evaluation. *)
Theorem evaluate_lost_on_empty_areaName
  (data : JSValue) (hourly : list JSValue) (numbers : list (float * float))
  (area : list (string * JSValue)) (areas : list JSValue) :
  has_series data hourly ->
  read_as hourly numbers ->
  JS.get data "nearest_area" = Ok (JArray (JObject area :: areas)) ->
  JS.lookup "areaName" area = JArray [] ->
  evaluate data = Throw TypeError.
Proof.
  intros S R G A. rewrite (evaluate_after_series S R).
  unfold nearestName. rewrite G. cbn. now rewrite A.
Qed.

End EvaluatingMore.

(** ** The geocoding lookup *)

Section GeocodingFacts.

(** X12. [getCoordinates] answers [null] exactly when the response is ok
    and its body parses to a value that is falsy or whose [results] is not
    an array with at least one element. *)
Theorem getCoordinates_null (fetched : result Response) :
  Geocoding.getCoordinates fetched = Ok None <->
  exists response data,
    fetched = Ok response /\ ok response = true /\ json response = Ok data /\
    (JS.truthy data = false \/
     exists results, JS.get data "results" = Ok results /\
                     forall first rest, results <> JArray (first :: rest)).
Proof.
  unfold Geocoding.getCoordinates. split.
  - destruct fetched as [response|]; cbn [bind_result]; [|discriminate].
    destruct (ok response) eqn:O; cbn [negb]; [|discriminate].
    destruct (json response) as [data|] eqn:J; cbn [bind_result]; [|discriminate].
    intros E. exists response, data. repeat split; try assumption.
    destruct (JS.truthy data) eqn:T; cbn [negb] in E; [right|now left].
    destruct (JS.get data "results") as [results|]; cbn [bind_result] in E;
      [|discriminate].
    exists results. split; [reflexivity|]. intros first rest ->.
    destruct (JS.get first "latitude"); cbn [bind_result] in E; [|discriminate].
    destruct (JS.get first "longitude"); discriminate.
  - intros (response & data & -> & O & J & [T|(results & G & N)]);
      cbn [bind_result]; rewrite O, J; cbn [negb bind_result].
    + now rewrite T.
    + destruct (JS.truthy data); cbn [negb]; [|reflexivity]. rewrite G.
      cbn [bind_result]. destruct results as [| | | | |[|first rest]|]; try reflexivity.
      now destruct (N first rest).
Qed.

(** X13. [getCoordinates] fails in four cases only: the fetch was rejected
    (the same error), the response is not ok (the geocoding error, the body
    is not read), the body does not parse (the parser's error), and the
    first result is [null] or [undefined] (a [TypeError]). *)
Theorem getCoordinates_throws (fetched : result Response) (err : exn) :
  Geocoding.getCoordinates fetched = Throw err <->
  fetched = Throw err \/
  exists response,
    fetched = Ok response /\
    (ok response = false /\ err = Error "Geocoding‑Anfrage fehlgeschlagen." \/
     ok response = true /\ json response = Throw err \/
     exists data first rest,
       ok response = true /\ json response = Ok data /\ JS.truthy data = true /\
       JS.get data "results" = Ok (JArray (first :: rest)) /\
       (first = JNull \/ first = JUndefined) /\ err = TypeError).
Proof.
  unfold Geocoding.getCoordinates. split.
  - destruct fetched as [response|e]; cbn [bind_result];
      [|intros E; injection E as ->; now left].
    intros E. right. exists response. split; [reflexivity|].
    destruct (ok response) eqn:O; cbn [negb] in E;
      [|injection E as <-; now left].
    destruct (json response) as [data|e] eqn:J; cbn [bind_result] in E;
      [|injection E as ->; right; now left].
    destruct (JS.truthy data) eqn:T; cbn [negb] in E; [|discriminate].
    right. right.
    destruct (JS.get data "results") as [results|e] eqn:G; cbn [bind_result] in E.
    + destruct results as [| | | | |[|first rest]|]; try discriminate E.
      exists data, first, rest.
      destruct first; cbn [JS.get bind_result] in E; try discriminate E;
        injection E as <-; tauto.
    + destruct data; try discriminate G; discriminate T.
  - intros [->|(response & -> & [[O ->]|[[O J]|(data & first & rest & O & J & T & G & F & ->)]])];
      cbn [bind_result]; [reflexivity| | |]; rewrite O; cbn [negb];
      [reflexivity| |]; rewrite J; cbn [bind_result]; [reflexivity|].
    rewrite T. cbn [negb]. rewrite G. cbn [bind_result].
    now destruct F as [-> | ->].
Qed.

End GeocodingFacts.

(** ** More on the submit handler *)

Section SubmittingMore.

Context {W : Type} `{Host W} `{StringConv} `{MathLib}.

Lemma accepted_guard (locationValue radiusValue : string) :
  accepted locationValue radiusValue ->
  (String.eqb (trim locationValue) "" || Num.isNaN (ParseFloatString radiusValue))
  = false.
Proof.
  intros [E N]. apply String.eqb_neq in E. unfold Num.isNaN. now rewrite E, N.
Qed.

(** What the handler leaves behind when the geocoder gives no origin. *)
Lemma submit_error_state (locationValue radiusValue : string) (s : State W)
  (r : result (option Coordinates)) (w : W) (err : exn) :
  accepted locationValue radiusValue ->
  getCoordinates (trim locationValue) (world s) = (r, w) ->
  (r = Ok None /\ err = Error "Ort konnte nicht gefunden werden.") \/ r = Throw err ->
  submit locationValue radiusValue s =
    (Ok tt,
     {| world := w;
        trace := (trace s ++ [EvGeocode (trim locationValue)]) ++ [EvError err];
        resultHtml := ErrorCard err; resultHidden := false;
        loadingText := "Suche läuft…"; loadingHidden := true |}).
Proof.
  intros A G R. unfold submit. rewrite (accepted_guard A).
  unfold try_catch_finally, try_catch, bind, geocode, resultSection_hidden,
    loadingSection_hidden, loadingSection_textContent, set_world, push, ret.
  cbn. rewrite G. destruct R as [[-> ->]| ->]; reflexivity.
Qed.

(** What the handler leaves behind when the geocoder gives an origin. *)
Lemma submit_found_state (locationValue radiusValue : string) (s : State W)
  (origin : Coordinates) (w : W) :
  accepted locationValue radiusValue ->
  getCoordinates (trim locationValue) (world s) = (Ok (Some origin), w) ->
  let radiusKm := ParseFloatString radiusValue in
  let candidates :=
    generateCandidatePoints (coord_lat origin) (coord_lon origin) radiusKm in
  let s1 :=
    {| world := w;
       trace := (trace s ++ [EvGeocode (trim locationValue)])
                ++ [EvGenerate (coord_lat origin) (coord_lon origin) radiusKm];
       resultHtml := resultHtml s; resultHidden := true;
       loadingText := "Suche läuft…"; loadingHidden := false |} in
  let s2 := snd (attempts candidates s1) in
  submit locationValue radiusValue s =
    (Ok tt,
     {| world := world s2; trace := trace s2;
        resultHtml :=
          match selectBest (successes (fst (attempts candidates s1))) with
          | None => NoSiteCard
          | Some best => BestCard best (trim locationValue) radiusKm
          end;
        resultHidden := false;
        loadingText := loadingText s2; loadingHidden := true |}).
Proof.
  intros A G. cbv zeta. unfold submit. rewrite (accepted_guard A).
  unfold try_catch_finally, try_catch, bind, geocode, resultSection_hidden,
    loadingSection_hidden, loadingSection_textContent, set_world, push, ret, log.
  cbn -[generateCandidatePoints findBestWeather attempts]. rewrite G.
  cbn -[generateCandidatePoints findBestWeather attempts].
  rewrite findBestWeather_unfold.
  match goal with |- context [attempts ?pts ?s1] =>
    destruct (attempts pts s1) as [outcomes s2]
  end.
  cbn [fst snd]. destruct (selectBest (successes outcomes)); reflexivity.
Qed.

(** X14. The handler never throws. Either it returns at once and nothing
    has changed, or it ends with the loading indicator hidden again, the
    result section shown, and the loading text [Suche läuft…]. *)
Theorem submit_never_throws (locationValue radiusValue : string) (s : State W) :
  fst (submit locationValue radiusValue s) = Ok tt /\
  (snd (submit locationValue radiusValue s) = s \/
   loadingHidden (snd (submit locationValue radiusValue s)) = true /\
   resultHidden (snd (submit locationValue radiusValue s)) = false /\
   loadingText (snd (submit locationValue radiusValue s)) = "Suche läuft…"%string).
Proof.
  destruct (String.eqb (trim locationValue) "") eqn:E.
  - unfold submit. rewrite E. cbn. auto.
  - destruct (is_nan (ParseFloatString radiusValue)) eqn:N.
    + unfold submit, Num.isNaN. rewrite N, orb_true_r. cbn. auto.
    + assert (A : accepted locationValue radiusValue)
        by (split; [now apply String.eqb_neq | assumption]).
      destruct (getCoordinates (trim locationValue) (world s)) as [[[origin|]|err] w] eqn:G.
      * rewrite (submit_found_state s A G). cbn [fst snd loadingHidden resultHidden loadingText].
        split; [reflexivity|right]. repeat split.
        match goal with |- context [attempts ?pts ?s1] =>
          pose proof (attempts_frame pts s1) as F end.
        cbv zeta in F. now rewrite (proj1 (proj2 (proj2 F))).
      * rewrite (@submit_error_state _ _ s _ _ _ A G (or_introl (conj eq_refl eq_refl))).
        cbn. auto.
      * rewrite (@submit_error_state _ _ s _ _ err A G (or_intror eq_refl)).
        cbn. auto.
Qed.

(** X15. When the place is not found, or the geocoding lookup fails, the
    handler shows the error and stops: the geocoding call and the logged
    error are all it did, so no candidate was generated and no forecast
    requested. *)
Theorem submit_without_origin (locationValue radiusValue : string) (s : State W)
  (r : result (option Coordinates)) (w : W) (err : exn) :
  accepted locationValue radiusValue ->
  getCoordinates (trim locationValue) (world s) = (r, w) ->
  (r = Ok None /\ err = Error "Ort konnte nicht gefunden werden.") \/ r = Throw err ->
  let s' := snd (submit locationValue radiusValue s) in
  resultHtml s' = ErrorCard err /\
  trace s' = trace s ++ [EvGeocode (trim locationValue); EvError err] /\
  world s' = w.
Proof.
  intros A G R. cbv zeta. rewrite (submit_error_state s A G R). cbn.
  now rewrite <- app_assoc.
Qed.




End SubmittingMore.

(** ** More on candidate generation *)

Module SFOpp.

Local Open Scope Z_scope.

Lemma binary_round_aux_opp (s : bool) (m e : Z) (l : location) :
  binary_round_aux prec emax (negb s) m e l =
    SFopp (binary_round_aux prec emax s m e l).
Proof.
  unfold binary_round_aux.
  destruct (shr_fexp prec emax m e l) as [r1 e1].
  destruct (shr_fexp prec emax _ e1 loc_Exact) as [r2 e2].
  destruct (shr_m r2); try reflexivity.
  now destruct (e2 <=? emax - prec).
Qed.

Lemma SFdiv_opp_l (x y : spec_float) :
  SFdiv prec emax (SFopp x) y = SFopp (SFdiv prec emax x y).
Proof.
  destruct x as [sx|sx| |sx mx ex], y as [sy|sy| |sy my ey]; cbn [SFopp SFdiv];
    rewrite <- ?negb_xorb_l; try reflexivity.
  destruct (SFdiv_core_binary prec emax (Zpos mx) ex (Zpos my) ey) as [[mz ez] lz].
  apply binary_round_aux_opp.
Qed.

Lemma SFmul_opp_l (x y : spec_float) :
  SFmul prec emax (SFopp x) y = SFopp (SFmul prec emax x y).
Proof.
  destruct x as [sx|sx| |sx mx ex], y as [sy|sy| |sy my ey]; cbn [SFopp SFmul];
    rewrite <- ?negb_xorb_l; try reflexivity.
  apply binary_round_aux_opp.
Qed.

Lemma SFadd_opp_r (x y : spec_float) :
  SFadd prec emax x (SFopp y) = SFsub prec emax x y.
Proof.
  destruct x as [sx|sx| |sx mx ex], y as [sy|sy| |sy my ey]; cbn [SFopp SFadd SFsub];
    try reflexivity; now destruct sx, sy.
Qed.

End SFOpp.

Module NumOpp.

Local Open Scope float_scope.

Lemma div_opp_l (x y : float) : (- x) / y = - (x / y).
Proof.
  apply Prim2SF_inj. rewrite div_spec, !opp_spec, div_spec. apply SFOpp.SFdiv_opp_l.
Qed.

Lemma mul_opp_l (x y : float) : (- x) * y = - (x * y).
Proof.
  apply Prim2SF_inj. rewrite mul_spec, !opp_spec, mul_spec. apply SFOpp.SFmul_opp_l.
Qed.

Lemma add_opp_r (x y : float) : x + (- y) = x - y.
Proof.
  apply Prim2SF_inj. rewrite add_spec, opp_spec, sub_spec. apply SFOpp.SFadd_opp_r.
Qed.

End NumOpp.

Section CandidatesMore.

Context `{MathLib}.
Local Open Scope float_scope.

(** X18. A negative radius mirrors the candidates through the origin: with
    the radius [- r] each candidate is the origin minus the offset that the
    radius [r] adds at the same bearing. *)
Theorem generateCandidatePoints_negative_radius (lat0 lon0 r : float) :
  generateCandidatePoints lat0 lon0 (- r) =
    {| lat := lat0; lon := lon0 |}
      :: map (fun angleDeg =>
                {| lat := lat0 - r / 111 * Math_cos (angleDeg * degToRad);
                   lon := lon0 - r / (111 * Math_cos (lat0 * degToRad))
                                 * Math_sin (angleDeg * degToRad) |})
           directions.
Proof.
  unfold generateCandidatePoints, directions, forEach, push.
  cbn [fold_left app map].
  now rewrite !NumOpp.div_opp_l, !NumOpp.mul_opp_l, !NumOpp.add_opp_r.
Qed.

(** X19. A radius that is NaN spoils every candidate but the origin: the
    eight points after it have NaN for latitude and for longitude. *)
Theorem generateCandidatePoints_nan_radius (lat0 lon0 radiusKm : float) :
  is_nan radiusKm = true ->
  hd_error (generateCandidatePoints lat0 lon0 radiusKm)
    = Some {| lat := lat0; lon := lon0 |} /\
  Forall (fun candidate => is_nan (lat candidate) = true /\ is_nan (lon candidate) = true)
    (tl (generateCandidatePoints lat0 lon0 radiusKm)).
Proof.
  intros N. split; [reflexivity|].
  unfold generateCandidatePoints, directions, forEach, push.
  cbn [fold_left app tl].
  repeat (constructor;
          [cbn [lat lon]; split;
           apply NumOrder.add_nan_r, NumMore.mul_nan_l, NumOrder.div_nan_l, N|]).
  constructor.
Qed.

End CandidatesMore.

(** ** More on [getWeather] *)

Section Fetching.

Context {W : Type} `{Host W} `{StringConv}.


End Fetching.

Module ScenarioMore.

Import Fixture Sample.
Local Open Scope float_scope.

(** Dryness 80 with 0.5 mm ranks ahead of 80 with 1.2 mm, which ranks ahead
    of 70 with 0 mm. *)
Lemma compareResults_consistent_witness :
  (SortCompare compareResults (entry 80 0.5) (entry 80 1.2) <? 0) = true /\
  (0 <? SortCompare compareResults (entry 80 1.2) (entry 80 0.5)) = true /\
  better (entry 80 0.5) (entry 70 0) = true.
Proof.
  destruct (@compareResults_consistent (entry 80 0.5) (entry 80 1.2) (entry 70 0))
    as (L & _ & _ & T); try reflexivity.
  destruct (@compareResults_consistent (entry 80 1.2) (entry 80 0.5) (entry 70 0))
    as (_ & G & _ & _); try reflexivity.
  split; [exact L|]. split; [exact G|]. apply T; reflexivity.
Defined.

(** A NaN dryness score against a score of 80. *)
Lemma compareResults_nan_ties_witness :
  SortCompare compareResults (entry nan 0) (entry 80 0) = 0 /\
  SortCompare compareResults (entry 80 0) (entry nan 0) = 0.
Proof. apply (@compareResults_nan_ties (entry nan 0) (entry 80 0)). reflexivity. Defined.

(** The four evaluations listed backwards: the entry selected is another
    one (the fourth of the original list), with the same scores 80 and
    0.5 mm. *)
Lemma selectBest_order_independent_witness :
  selectBest ranked_four = nth_error ranked_four 1 /\
  selectBest ranked_back = nth_error ranked_four 3 /\
  exists best',
    selectBest ranked_back = Some best' /\
    (dryness best' =? 80) = true /\ (precip best' =? 0.5) = true.
Proof.
  split; [reflexivity|]. split; [reflexivity|].
  apply (@selectBest_order_independent ranked_four ranked_back
           {| e_lat := 52.61; e_lon := 13.405; dryness := 80; precip := 0.5;
              nearest := JString "" |}).
  - repeat constructor.
  - apply Permutation_rev.
  - reflexivity.
Defined.

(** Two sites with a forecast each: the site returned is one of the two. *)
Lemma findBestWeather_site_is_candidate_witness :
  exists best,
    fst (@findBestWeather World host conv two_sites two_dry) = Ok (Some best) /\
    In (site best) two_sites.
Proof.
  destruct (fst (@findBestWeather World host conv two_sites two_dry))
    as [[best|]|err] eqn:E; try discriminate E.
  exists best. split; [reflexivity|].
  exact (@findBestWeather_site_is_candidate World host conv two_sites two_dry best E).
Defined.

(** An [hourly] that is a string. *)
Lemma evaluate_refuses_missing_series_witness :
  @evaluate conv (JObject no_hours) =
    Throw (Error "Unvollständige Wetterdaten erhalten.").
Proof.
  apply (@evaluate_refuses_missing_series conv no_hours).
  right. right.
  exists (JObject [("hourly"%string, JString "none")]), [], (JString "none").
  repeat split.
Defined.

(** Two hours, 80 and 70 per cent, 1.2 and 0.5 mm. *)
Lemma evaluate_mean_and_sum_witness :
  exists w,
    @evaluate conv two_hours = Ok w /\
    w_dryness w = (0 + 80 + 70) / 2 /\
    w_precip w = 0 + 1.2 + 0.5 /\
    w_nearest w = JString "".
Proof.
  apply (@evaluate_mean_and_sum conv two_hours
           [hour "80" "1.2"; hour "70" "0.5"] [(80, 1.2); (70, 0.5)] (JString "")).
  - eexists _, _, _. repeat split.
  - repeat constructor.
  - reflexivity.
Defined.

(** An hour that is [null] between two that can be read. *)
Lemma evaluate_first_unreadable_hour_witness :
  @evaluate conv missing_hour = Throw TypeError.
Proof.
  apply (@evaluate_first_unreadable_hour conv missing_hour
           [hour "80" "1.2"] [hour "70" "0.5"] JNull [(80, 1.2)] TypeError).
  - eexists _, _, _. repeat split.
  - repeat constructor.
  - reflexivity.
Defined.


(** One readable hour and [nearest_area: [{areaName: []}]]. *)
Lemma evaluate_lost_on_empty_areaName_witness :
  @evaluate conv unnamed_area = Throw TypeError.
Proof.
  apply (@evaluate_lost_on_empty_areaName conv unnamed_area
           [hour "80" "1.2"] [(80, 1.2)] [("areaName"%string, JArray [])] []).
  - eexists _, _, _. repeat split.
  - repeat constructor.
  - reflexivity.
  - reflexivity.
Defined.

(** A place the geocoder does not find. *)
Lemma submit_without_origin_witness :
  let s' := snd (@submit World host conv engine "Atlantis" "10" unknown_place) in
  resultHtml s' = ErrorCard (Error "Ort konnte nicht gefunden werden.") /\
  trace s' =
    [EvGeocode "Atlantis"; EvError (Error "Ort konnte nicht gefunden werden.")] /\
  world s' = world unknown_place.
Proof.
  apply (@submit_without_origin World host conv engine "Atlantis" "10" unknown_place
           (Ok None) (world unknown_place) (Error "Ort konnte nicht gefunden werden.")).
  - split; [discriminate|reflexivity].
  - reflexivity.
  - left. split; reflexivity.
Defined.



(** Berlin with a radius that is NaN. *)
Lemma generateCandidatePoints_nan_radius_witness :
  hd_error (@generateCandidatePoints engine 52.52 13.405 nan)
    = Some {| lat := 52.52; lon := 13.405 |} /\
  Forall (fun candidate => is_nan (lat candidate) = true /\ is_nan (lon candidate) = true)
    (tl (@generateCandidatePoints engine 52.52 13.405 nan)).
Proof.
  apply (@generateCandidatePoints_nan_radius engine 52.52 13.405 nan). reflexivity.
Defined.

End ScenarioMore.
